(** * iTop -> Elasticsearch synchroniser: a shallow embedding

    The development follows the two Go source files of the exporter:

    - [main.go] (package [main]): the sink record [ESTicket], the identity
      hash [hashTicketKey], the record mapping [mapTicketToES] with its six
      SLA verdicts, the content comparison [compareESTicket], the sink
      calls [upsertESTicket] / [deleteESTicket] and the reconciliation part
      of [syncLoop];
    - the [itop] package file with [FetchPersonTeams] and its process-wide
      cache.

    Go values are modelled as the code has them: [string] is a byte string,
    [time.Duration] is a signed 64-bit count of nanoseconds (a [Z]),
    [float64] is the kernel's binary64 type, Go maps are [gmap]s, and the
    global logger, the person-team cache and the outgoing requests are
    fields of one explicit process state that every effectful function
    threads. *)

From Stdlib Require Import ZArith Lia List Ascii String Floats Uint63.
From Stdlib.Strings Require Import Byte.
From stdpp Require Import gmap strings list fin_maps pretty relations.

Local Open Scope string_scope.
Local Open Scope Z_scope.
Local Open Scope list_scope.

(** ** Byte strings *)

(** Go's [[]byte(s)]. *)
Definition bytes_of_string (s : string) : list byte := list_byte_of_string s.

(** The value of a byte as an unsigned 8-bit integer. *)
Definition byte_val (b : byte) : Z := Z.of_N (Byte.to_N b).

(** ** crypto/sha1 and encoding/hex

    [hashTicketKey] feeds one byte string to SHA-1 and prints the 20-byte
    digest in lower-case hexadecimal.  Words are unsigned 32-bit integers:
    a [Z] reduced modulo [2^32] after every addition, rotation and
    complement. *)
Module sha1.

Definition mask32 (x : Z) : Z := Z.land x 4294967295.

Definition add32 (x y : Z) : Z := mask32 (x + y).

Definition not32 (x : Z) : Z := Z.lxor x 4294967295.

(** [bits.RotateLeft32 x n] for [0 < n < 32]. *)
Definition RotateLeft32 (x : Z) (n : Z) : Z :=
  mask32 (Z.lor (Z.shiftl x n) (Z.shiftr x (32 - n))).

Definition init0 : Z := 1732584193.  (* 0x67452301 *)
Definition init1 : Z := 4023233417.  (* 0xEFCDAB89 *)
Definition init2 : Z := 2562383102.  (* 0x98BADCFE *)
Definition init3 : Z := 271733878.   (* 0x10325476 *)
Definition init4 : Z := 3285377520.  (* 0xC3D2E1F0 *)

Definition K0 : Z := 1518500249.  (* 0x5A827999 *)
Definition K1 : Z := 1859775393.  (* 0x6ED9EBA1 *)
Definition K2 : Z := 2400959708.  (* 0x8F1BBCDC *)
Definition K3 : Z := 3395469782.  (* 0xCA62C1D6 *)

(** Big-endian encoding of [x] on [n] bytes, as byte values. *)
Fixpoint be_bytes (n : nat) (x : Z) : list Z :=
  match n with
  | O => []
  | S n' => Z.land (Z.shiftr x (8 * Z.of_nat n')) 255 :: be_bytes n' x
  end.

(** The padding of [digest.checkSum]: a [0x80] byte, zeros up to 56
    modulo 64, then the message length in bits on 8 bytes. *)
Definition pad (msg : list Z) : list Z :=
  let len := Z.of_nat (length msg) in
  let zeros := Z.to_nat ((55 - len) mod 64) in
  msg ++ [128] ++ repeat 0 zeros ++ be_bytes 8 (8 * len).

(** The 16 big-endian words of one 64-byte chunk. *)
Fixpoint words (n : nat) (p : list Z) : list Z :=
  match n with
  | O => []
  | S n' =>
      match p with
      | b0 :: b1 :: b2 :: b3 :: rest =>
          Z.lor (Z.lor (Z.lor (Z.shiftl b0 24) (Z.shiftl b1 16)) (Z.shiftl b2 8)) b3
            :: words n' rest
      | _ => []
      end
  end.

(** The message schedule, newest word first: [w] holds [w(i-1) .. w(0)]. *)
Fixpoint schedule (n : nat) (w : list Z) : list Z :=
  match n with
  | O => w
  | S n' =>
      let tmp := Z.lxor (Z.lxor (Z.lxor (nth 2 w 0) (nth 7 w 0)) (nth 13 w 0)) (nth 15 w 0) in
      schedule n' (RotateLeft32 tmp 1 :: w)
  end.

Definition round_f (i : nat) (b c d : Z) : Z :=
  if (i <? 20)%nat then Z.lor (Z.land b c) (Z.land (not32 b) d)
  else if (i <? 40)%nat then Z.lxor (Z.lxor b c) d
  else if (i <? 60)%nat then Z.lor (Z.lor (Z.land b c) (Z.land b d)) (Z.land c d)
  else Z.lxor (Z.lxor b c) d.

Definition round_k (i : nat) : Z :=
  if (i <? 20)%nat then K0 else if (i <? 40)%nat then K1
  else if (i <? 60)%nat then K2 else K3.

Definition regs : Type := Z * Z * Z * Z * Z.

Definition round (st : nat * regs) (wi : Z) : nat * regs :=
  let '(i, (a, b, c, d, e)) := st in
  let t := add32 (add32 (add32 (add32 (RotateLeft32 a 5) (round_f i b c d)) e) wi) (round_k i) in
  (S i, (t, a, RotateLeft32 b 30, c, d)).

(** [blockGeneric] on one chunk. *)
Definition block (h : regs) (chunk : list Z) : regs :=
  let w := rev (schedule 64 (rev (words 16 chunk))) in
  let '(_, (a, b, c, d, e)) := fold_left round w (O, h) in
  let '(h0, h1, h2, h3, h4) := h in
  (add32 h0 a, add32 h1 b, add32 h2 c, add32 h3 d, add32 h4 e).

Fixpoint blocks (n : nat) (h : regs) (p : list Z) : regs :=
  match n with
  | O => h
  | S n' => blocks n' (block h (firstn 64 p)) (skipn 64 p)
  end.

(** [sha1.New(); h.Write(msg); h.Sum(nil)]: the 20 digest bytes. *)
Definition Sum (msg : list byte) : list Z :=
  let p := pad (map byte_val msg) in
  let '(h0, h1, h2, h3, h4) :=
    blocks (length p / 64) (init0, init1, init2, init3, init4) p in
  be_bytes 4 h0 ++ be_bytes 4 h1 ++ be_bytes 4 h2 ++ be_bytes 4 h3 ++ be_bytes 4 h4.

End sha1.

Module hex.

Definition hextable : string := "0123456789abcdef".

Definition digit (n : Z) : ascii :=
  match String.get (Z.to_nat n) hextable with
  | Some c => c
  | None => "0"%char
  end.

(** [hex.EncodeToString]: two lower-case digits per byte. *)
Fixpoint EncodeToString (src : list Z) : string :=
  match src with
  | [] => ""
  | v :: rest =>
      String (digit (Z.shiftr v 4)) (String (digit (Z.land v 15)) (EncodeToString rest))
  end.

End hex.

(** main.go:160-164. *)
Definition hashTicketKey (id ref class : string) : string :=
  hex.EncodeToString (sha1.Sum (bytes_of_string (id +:+ ":" +:+ ref +:+ ":" +:+ class))).

(** ** Package time *)

(** [time.Duration]: a signed 64-bit count of nanoseconds. *)
Definition Duration : Type := Z.

Definition is_int64 (d : Z) : Prop := - 2 ^ 63 <= d < 2 ^ 63.

Definition Second : Duration := 1000000000.

(** The conversion [float64(x)] of a signed 64-bit integer: rounding to
    nearest, ties to even.  The kernel's conversion takes an unsigned
    63-bit integer, so a negative [x] is converted through [- x]; this
    covers every [x] with [- 2 ^ 63 < x < 2 ^ 63], and [Seconds] only
    converts a quotient and a remainder by [Second], which are. *)
Definition float64_of_int64 (x : Z) : float :=
  if x <? 0 then PrimFloat.opp (PrimFloat.of_uint63 (Uint63.of_Z (- x)))
  else PrimFloat.of_uint63 (Uint63.of_Z x).

(** [Duration.Seconds]:
    [sec := d / Second; nsec := d % Second;
     return float64(sec) + float64(nsec)/1e9].
    Go's integer division truncates toward zero ([Z.quot], [Z.rem]). *)
Definition Seconds (d : Duration) : float :=
  PrimFloat.add (float64_of_int64 (Z.quot d Second))
                (PrimFloat.div (float64_of_int64 (Z.rem d Second)) 1e9%float).

Arguments Seconds d%_Z_scope.
Arguments float64_of_int64 x%_Z_scope.

(** Predicates on the specification [spec_float] of a [float64], used to
    relate the integer test [d > 0] on a duration with the floating-point
    tests on [d.Seconds()]. *)
Module float64.

(** The least exponent of a binary64 mantissa, [-1074]. *)
Definition emin64 : Z := emin.

(** A positive float, infinity included. *)
Definition positive_float (x : spec_float) : Prop :=
  match x with
  | S754_finite false _ _ | S754_infinity false => True
  | _ => False
  end.

(** A float that is zero or positive. *)
Definition nonneg (x : spec_float) : Prop :=
  match x with
  | S754_zero _ | S754_finite false _ _ | S754_infinity false => True
  | _ => False
  end.

(** A positive float of order of magnitude at least [k]: its mantissa
    [m] and exponent [e] have [k <= Zdigits2 m + e], so its value is at
    least [2 ^ (k - 1)]. *)
Definition big (k : Z) (x : spec_float) : Prop :=
  match x with
  | S754_finite false m e => k <= Zdigits2 (Zpos m) + e
  | S754_infinity false => True
  | _ => False
  end.

End float64.

(** [*time.Location], by name. *)
Definition Location : Type := string.

(** [time.Time]: an instant, counted in nanoseconds from the zero time
    (January 1, year 1, 00:00:00 UTC), and the location it is shown in. *)
Record Time := {
  instant : Z;
  loc : Location;
}.

Definition IsZero (t : Time) : bool := instant t =? 0.

(** [t.In(loc)]: the same instant, shown in [loc]. *)
Definition In_ (t : Time) (loc : Location) : Time :=
  {| instant := instant t; loc := loc |}.

(** ** Requests leaving the process *)

(** The [params] map handed to [ITopClient.Post]: its three string
    entries, by key. *)
Definition Params : Type := list (string * string).

(** An [*http.Request] as [upsertESTicket], [deleteESTicket] and
    [fetchAllESTickets] build it. *)
Record Request := {
  Method : string;
  Url : string;
  Body : list byte;
  BasicAuth : option (string * string);
  ContentType : option string;
}.

(** What [http.DefaultClient.Do] returns: a transport error, or a response
    with its status code and body. *)
Inductive HttpResult :=
| TransportError (err : string)
| Response (StatusCode : Z) (body : string).

(** ** The process state

    The package-level variables of [itop] and the observable effects of both
    packages.  [sync.RWMutex] and the goroutines are not modelled: calls are
    sequential. *)
Record State := {
  personTeamCache : gmap string string;  (* var personTeamCache *)
  ticks : nat;                           (* values received from rateLimiter.C *)
  posted : list Params;                  (* calls of ITopClient.Post, oldest first *)
  sent : list Request;                   (* calls of http.DefaultClient.Do, oldest first *)
  logged : list string;                  (* lines written through package log *)
}.

Definition init_State : State :=
  {| personTeamCache := ∅; ticks := O; posted := []; sent := []; logged := [] |}.

Definition set_cache (name team : string) (s : State) : State :=
  {| personTeamCache := <[name := team]> (personTeamCache s); ticks := ticks s;
     posted := posted s; sent := sent s; logged := logged s |}.

Definition take_tick (s : State) : State :=
  {| personTeamCache := personTeamCache s; ticks := S (ticks s);
     posted := posted s; sent := sent s; logged := logged s |}.

Definition record_post (p : Params) (s : State) : State :=
  {| personTeamCache := personTeamCache s; ticks := ticks s;
     posted := posted s ++ [p]; sent := sent s; logged := logged s |}.

Definition record_send (r : Request) (s : State) : State :=
  {| personTeamCache := personTeamCache s; ticks := ticks s;
     posted := posted s; sent := sent s ++ [r]; logged := logged s |}.

(** [log.Println] / [log.Printf], with the message already formatted. *)
Definition Printf (line : string) (s : State) : State :=
  {| personTeamCache := personTeamCache s; ticks := ticks s;
     posted := posted s; sent := sent s; logged := logged s ++ [line] |}.

(** [os.Getenv]: the process environment, fixed while the process runs. *)
Class Environ := { Getenv : string -> string }.

(** ** Package itop *)
Module itop.

(** The fields of [itop.Ticket] that [main.go] reads.  The type is
    declared in a file of the package that is not part of the sources;
    the field types are the ones their uses require. *)
Record Ticket := {
  ID : string;
  Ref : string;
  Class_ : string;
  Title : string;
  Status : string;
  Priority : string;
  Urgency : string;
  Impact : string;
  ServiceID : string;
  Service : string;
  ServiceSubcategory : string;
  AgentID : string;
  Agent : string;
  TeamID : string;
  Team : string;
  Caller : string;
  Origin : string;
  StartDate : Time;
  AssignmentDate : Time;
  ResolutionDate : Time;
  TimeToResolve : Duration;
  TimeToResponse : Duration;
}.

(** The result of [GetSLTDeadlineCached]: the response and resolution
    deadlines. *)
Record SLT := {
  TTO : Duration;
  TTR : Duration;
}.

Record ITopClient := {
  BaseURL : string;
  Username : string;
  Password : string;
  Version : string;
}.

(** The anonymous [result] struct of [FetchPersonTeams].  [Objects] is a
    Go map; the list gives its entries in the order the [range] loop
    visits them, each with the [team_name]s of its [team_list]. *)
Record PersonResult := {
  Code : Z;
  Message : string;
  Objects : list (string * list string);
}.

(** The collaborators of [FetchPersonTeams]: [ITopClient.Post] (declared
    in another file of the package) and [json.Unmarshal] into the
    [result] struct.  A call of [Post] may answer differently each time:
    it is given the calls made before it. *)
Class Remote := {
  Post : list Params -> ITopClient -> string -> Params -> list byte + string;
  Unmarshal : list byte -> PersonResult + string;
}.

(** [strings.ReplaceAll] of a double quote by a backslash and a double
    quote: a backslash before every double quote of [s]. *)
Fixpoint escapeQuotes (s : string) : string :=
  match s with
  | EmptyString => EmptyString
  | String c rest =>
      if Ascii.eqb c (ascii_of_nat 34)
      then String (ascii_of_nat 92) (String c (escapeQuotes rest))
      else String c (escapeQuotes rest)
  end.

(** [strings.Join(elems, sep)]. *)
Fixpoint Join (elems : list string) (sep : string) : string :=
  match elems with
  | [] => ""
  | [e] => e
  | e :: rest => e +:+ sep +:+ Join rest sep
  end.

Definition quote : string := String (ascii_of_nat 34) "".

Section FetchPersonTeams.
Context {env : Environ} {remote : Remote}.

(** The client and the query [FetchPersonTeams] builds, lines 131-148. *)
Definition personClient : ITopClient :=
  {| BaseURL := Getenv "ITOP_API_URL"; Username := Getenv "ITOP_API_USER";
     Password := Getenv "ITOP_API_PWD"; Version := "1.3" |}.

Definition personParams (personName : string) : Params :=
  let escapedName := escapeQuotes personName in
  [("class", "Person");
   ("key", "SELECT Person WHERE friendlyname=" +:+ quote +:+ escapedName +:+ quote);
   ("output_fields", "friendlyname,team_list")].

(** Whether one of the three credentials is missing, line 134. *)
Definition credentialsMissing : bool :=
  String.eqb (Getenv "ITOP_API_URL") ""
  || String.eqb (Getenv "ITOP_API_USER") ""
  || String.eqb (Getenv "ITOP_API_PWD") "".

(** [FetchPersonTeams], lines 108-198.  The result is the pair Go
    returns ([None] for a nil error) and the state after the call. *)
Definition FetchPersonTeams (personName : string) (s : State)
  : (string * option string) * State :=
  match personTeamCache s !! personName with
  | Some team => ((team, None), s)
  | None =>
      if String.eqb personName "" then (("-", None), set_cache personName "-" s)
      else
        let s := take_tick s in
        if credentialsMissing
        then (("-", None), Printf "Missing iTop API environment variables" s)
        else
          let client := personClient in
          let params := personParams personName in
          let answer := Post (posted s) client "core/get" params in
          let s := record_post params s in
          match answer with
          | inr err => (("-", Some err), Printf ("Error fetching person teams: " +:+ err) s)
          | inl resp =>
              match Unmarshal resp with
              | inr err =>
                  (("-", Some err),
                   Printf ("Error parsing person teams response: " +:+ err) s)
              | inl result =>
                  if negb (Code result =? 0) || (length (Objects result) =? 0)%nat
                  then (("-", None), set_cache personName "-" s)
                  else
                    let teamNames := flat_map snd (Objects result) in
                    if (length teamNames =? 0)%nat
                    then (("-", None), set_cache personName "-" s)
                    else
                      let teamList := Join teamNames ", " in
                      ((teamList, None), set_cache personName teamList s)
              end
          end
  end.

End FetchPersonTeams.

End itop.

(** ** Package main *)

#[local] Instance byte_eq_decision : EqDecision byte := byte_eq_dec.

(** main.go:21-26. *)
Record ESConfig := {
  URL : string;
  Username : string;
  Password : string;
  Index : string;
}.

(** main.go:29-64.  The three dates are [*time.Time]: [None] is nil. *)
Record ESTicket := {
  ID : string;
  Ref : string;
  Class_ : string;
  Title : string;
  Status : string;
  Priority : string;
  Urgency : string;
  Impact : string;
  ServiceID : string;
  ServiceName : string;
  ServiceSubcategoryName : string;
  AgentID : string;
  Agent : string;
  TeamID : string;
  Team : string;
  Caller : string;
  CallerTeam : string;
  Origin : string;
  StartDate : option Time;
  AssignmentDate : option Time;
  ResolutionDate : option Time;
  TimeToResponseRaw : float;
  TimeToResolveRaw : float;
  SLAComplianceResponseRaw : string;
  SLAComplianceResolveRaw : string;
  TimeToResponseBusinessHr : float;
  TimeToResolveBusinessHr : float;
  SLAComplianceResponseBusinessHour : string;
  SLAComplianceResolveBusinessHour : string;
  TimeToResponse24BH : float;
  TimeToResolve24BH : float;
  SLAComplianceResponse24BH : string;
  SLAComplianceResolve24BH : string;
}.

(** The composite key of a record, and its identity hash: the [_id] under
    which [upsertESTicket] and [deleteESTicket] address it. *)
Definition compositeKey (t : ESTicket) : string * string * string :=
  (ID t, Ref t, Class_ t).

Definition identityHash (t : ESTicket) : string :=
  hashTicketKey (ID t) (Ref t) (Class_ t).

(** The collaborators of [main.go] that are not part of the sources
    ([utils.CalculateBusinessHourDuration], [itop.GetSLTDeadlineCached]) or
    belong to Go's library ([time.LoadLocation], [time.Local],
    [json.Marshal] of an [ESTicket], [json.Unmarshal] of a search response
    into its list of [_source] records, [http.DefaultClient.Do]).  [Marshal]
    gives the bytes [json.Marshal] returns, nil when it fails; [Do] is given
    the requests sent before the one it answers. *)
Class Services := {
  CalculateBusinessHourDuration :
    Time -> Time -> string -> string -> gset string -> Duration;
  GetSLTDeadlineCached : string -> string -> string -> itop.SLT;
  LoadLocation : string -> option Location;
  time_Local : Location;
  Marshal : ESTicket -> list byte;
  UnmarshalHits : string -> list ESTicket;
  Do : list Request -> Request -> HttpResult;
}.

(** main.go:330-343. *)
Definition priorityLabel (id : string) : string :=
  if String.eqb id "1" then "Critical"
  else if String.eqb id "2" then "High"
  else if String.eqb id "3" then "Medium"
  else if String.eqb id "4" then "Low"
  else id.

(** main.go:345-358. *)
Definition urgencyLabel (id : string) : string :=
  if String.eqb id "1" then "Critical"
  else if String.eqb id "2" then "High"
  else if String.eqb id "3" then "Medium"
  else if String.eqb id "4" then "Low"
  else id.

(** main.go:360-371. *)
Definition impactLabel (id : string) : string :=
  if String.eqb id "1" then "A department"
  else if String.eqb id "2" then "A service"
  else if String.eqb id "3" then "A person"
  else id.

(** The raw verdict, main.go:201-209 (response) and 210-218 (resolution):
    [deadline] is [slt.TTO] or [slt.TTR], [raw] is [ttoRaw] or [ttrRaw]. *)
Definition complianceRaw (deadline : Duration) (raw : float) : string :=
  if (0 <? deadline) && (0 <? raw)%float then
    if (raw <=? Seconds deadline)%float then "comply" else "overdue"
  else "".

(** The verdict over a work window, main.go:222-232 and 233-243 (business
    hours), 247-257 and 258-268 (24-hour window): [bh] is the duration
    computed over the window, [raw] the wall-clock duration in seconds. *)
Definition complianceWindow (deadline bh : Duration) (raw : float) : string :=
  if 0 <? deadline then
    if ((0 <? bh) && (Seconds bh <=? Seconds deadline)%float)
       || ((Seconds bh =? 0)%float && (0 <? raw)%float && (raw <=? Seconds deadline)%float)
    then "comply"
    else if (0 <? Seconds bh)%float then "overdue"
    else ""
  else "".

(** [if !t.IsZero() { v := t.In(loc); ptr = &v }], main.go:279-291. *)
Definition datePtr (t : Time) (loc : Location) : option Time :=
  if IsZero t then None else Some (In_ t loc).

Section Main.
Context {env : Environ} {remote : itop.Remote} {services : Services}.

(** main.go:167-174: the configured work window, 08:00-17:00 by default. *)
Definition workStart : string :=
  let workStart := Getenv "WORK_START" in
  if String.eqb workStart "" then "08:00" else workStart.

Definition workEnd : string :=
  let workEnd := Getenv "WORK_END" in
  if String.eqb workEnd "" then "17:00" else workEnd.

(** main.go:166-328. *)
Definition mapTicketToES (t : itop.Ticket) (holidays : gset string) (debug : bool)
    (s : State) : ESTicket * State :=
  let workStart := workStart in
  let workEnd := workEnd in
  let ttrRaw := Seconds (itop.TimeToResolve t) in
  let ttoRaw := Seconds (itop.TimeToResponse t) in
  let ttrBH := CalculateBusinessHourDuration
                 (itop.StartDate t) (itop.ResolutionDate t) workStart workEnd holidays in
  let ttoBH := CalculateBusinessHourDuration
                 (itop.StartDate t) (itop.AssignmentDate t) workStart workEnd holidays in
  let ttr24BH := CalculateBusinessHourDuration
                   (itop.StartDate t) (itop.ResolutionDate t) "00:00" "23:59" holidays in
  let tto24BH := CalculateBusinessHourDuration
                   (itop.StartDate t) (itop.AssignmentDate t) "00:00" "23:59" holidays in
  let '(callerTeam, s) :=
    if negb (String.eqb (itop.Caller t) "") then
      let '((callerTeam, err), s) := itop.FetchPersonTeams (itop.Caller t) s in
      match err with
      | Some e =>
          (callerTeam,
           Printf ("Error fetching teams for caller " +:+ itop.Caller t +:+ ": " +:+ e) s)
      | None =>
          if negb (String.eqb callerTeam "-") && debug
          then (callerTeam,
                Printf ("Found teams for caller " +:+ itop.Caller t +:+ ": " +:+ callerTeam) s)
          else (callerTeam, s)
      end
    else ("-", s) in
  let slt := GetSLTDeadlineCached (itop.Class_ t) (itop.Priority t) (itop.Service t) in
  let slaComplianceResponseRaw := complianceRaw (itop.TTO slt) ttoRaw in
  let slaComplianceResolveRaw := complianceRaw (itop.TTR slt) ttrRaw in
  let slaComplianceResponseBH := complianceWindow (itop.TTO slt) ttoBH ttoRaw in
  let slaComplianceResolveBH := complianceWindow (itop.TTR slt) ttrBH ttrRaw in
  let slaComplianceResponse24BH := complianceWindow (itop.TTO slt) tto24BH ttoRaw in
  let slaComplianceResolve24BH := complianceWindow (itop.TTR slt) ttr24BH ttrRaw in
  let tz := Getenv "TIMEZONE" in
  let tz := if String.eqb tz "" then "UTC" else tz in
  let loc := match LoadLocation tz with Some loc => loc | None => time_Local end in
  ({| ID := itop.ID t;
      Ref := itop.Ref t;
      Class_ := itop.Class_ t;
      Title := itop.Title t;
      Status := itop.Status t;
      Priority := priorityLabel (itop.Priority t);
      Urgency := urgencyLabel (itop.Urgency t);
      Impact := impactLabel (itop.Impact t);
      ServiceID := itop.ServiceID t;
      ServiceName := itop.Service t;
      ServiceSubcategoryName := itop.ServiceSubcategory t;
      AgentID := itop.AgentID t;
      Agent := itop.Agent t;
      TeamID := itop.TeamID t;
      Team := itop.Team t;
      Caller := itop.Caller t;
      CallerTeam := callerTeam;
      Origin := itop.Origin t;
      StartDate := datePtr (itop.StartDate t) loc;
      AssignmentDate := datePtr (itop.AssignmentDate t) loc;
      ResolutionDate := datePtr (itop.ResolutionDate t) loc;
      TimeToResponseRaw := ttoRaw;
      TimeToResolveRaw := ttrRaw;
      SLAComplianceResponseRaw := slaComplianceResponseRaw;
      SLAComplianceResolveRaw := slaComplianceResolveRaw;
      TimeToResponseBusinessHr := Seconds ttoBH;
      TimeToResolveBusinessHr := Seconds ttrBH;
      SLAComplianceResponseBusinessHour := slaComplianceResponseBH;
      SLAComplianceResolveBusinessHour := slaComplianceResolveBH;
      TimeToResponse24BH := Seconds tto24BH;
      TimeToResolve24BH := Seconds ttr24BH;
      SLAComplianceResponse24BH := slaComplianceResponse24BH;
      SLAComplianceResolve24BH := slaComplianceResolve24BH |}, s).

(** The local variables of [mapTicketToES] that the SLA verdicts are
    computed from, as functions of the ticket: the deadlines (line 197)
    and the durations over the work window and over the 24-hour window
    (lines 177-182). *)
Definition sltOf (t : itop.Ticket) : itop.SLT :=
  GetSLTDeadlineCached (itop.Class_ t) (itop.Priority t) (itop.Service t).

Definition ttoBHOf (t : itop.Ticket) (holidays : gset string) : Duration :=
  CalculateBusinessHourDuration
    (itop.StartDate t) (itop.AssignmentDate t) workStart workEnd holidays.

Definition ttrBHOf (t : itop.Ticket) (holidays : gset string) : Duration :=
  CalculateBusinessHourDuration
    (itop.StartDate t) (itop.ResolutionDate t) workStart workEnd holidays.

Definition tto24BHOf (t : itop.Ticket) (holidays : gset string) : Duration :=
  CalculateBusinessHourDuration
    (itop.StartDate t) (itop.AssignmentDate t) "00:00" "23:59" holidays.

Definition ttr24BHOf (t : itop.Ticket) (holidays : gset string) : Duration :=
  CalculateBusinessHourDuration
    (itop.StartDate t) (itop.ResolutionDate t) "00:00" "23:59" holidays.

(** main.go:373-377. *)
Definition compareESTicket (a b : ESTicket) : bool :=
  let aj := Marshal a in
  let bj := Marshal b in
  bool_decide (aj = bj).

(** [req.SetBasicAuth] when a user name is configured. *)
Definition basicAuth (conf : ESConfig) : option (string * string) :=
  if String.eqb (Username conf) "" then None else Some (Username conf, Password conf).

(** The request of [fetchAllESTickets], main.go:381-386. *)
Definition searchRequest (conf : ESConfig) : Request :=
  let url := URL conf +:+ "/" +:+ Index conf +:+ "/_search?size=10000" in
  {| Method := "GET"; Url := url; Body := [];
     BasicAuth := basicAuth conf; ContentType := Some "application/json" |}.

(** main.go:379-407. *)
Definition fetchAllESTickets (conf : ESConfig) (s : State) : list ESTicket * State :=
  let req := searchRequest conf in
  let answer := Do (sent s) req in
  let s := record_send req s in
  match answer with
  | TransportError err => ([], Printf ("Failed to fetch from ES: " +:+ err) s)
  | Response _ body => (UnmarshalHits body, s)
  end.

(** The address of the document with the given [_id]. *)
Definition docURL (conf : ESConfig) (id : string) : string :=
  URL conf +:+ "/" +:+ Index conf +:+ "/_doc/" +:+ id.

(** The request of [upsertESTicket], main.go:411-418. *)
Definition upsertRequest (conf : ESConfig) (t : ESTicket) : Request :=
  let id := hashTicketKey (ID t) (Ref t) (Class_ t) in
  let url := docURL conf id in
  let data := Marshal t in
  {| Method := "PUT"; Url := url; Body := data;
     BasicAuth := basicAuth conf; ContentType := Some "application/json" |}.

(** main.go:409-429. *)
Definition upsertESTicket (conf : ESConfig) (t : ESTicket) (s : State) : State :=
  let req := upsertRequest conf t in
  let answer := Do (sent s) req in
  let s := record_send req s in
  match answer with
  | TransportError err => Printf ("Failed to upsert ES: " +:+ err) s
  | Response StatusCode body =>
      if 300 <=? StatusCode then Printf ("ES upsert error: " +:+ body) s else s
  end.

(** The request of [deleteESTicket], main.go:432-437. *)
Definition deleteRequest (conf : ESConfig) (t : ESTicket) : Request :=
  let id := hashTicketKey (ID t) (Ref t) (Class_ t) in
  let url := docURL conf id in
  {| Method := "DELETE"; Url := url; Body := [];
     BasicAuth := basicAuth conf; ContentType := None |}.

(** How [deleteESTicket] treats the answer to its request, main.go:438-447:
    the line it logs, if any. *)
Definition deleteOutcome (answer : HttpResult) : option string :=
  match answer with
  | TransportError err => Some ("Failed to delete ES: " +:+ err)
  | Response StatusCode body =>
      if (300 <=? StatusCode) && negb (StatusCode =? 404)
      then Some ("ES delete error: " +:+ body)
      else None
  end.

(** main.go:431-448. *)
Definition deleteESTicket (conf : ESConfig) (t : ESTicket) (s : State) : State :=
  let req := deleteRequest conf t in
  let answer := Do (sent s) req in
  let s := record_send req s in
  match deleteOutcome answer with
  | Some line => Printf line s
  | None => s
  end.

(** main.go:135-138: the snapshot of the sink as a map from identity hash
    to record; a later record replaces an earlier one with the same hash. *)
Definition esTicketMapOf (esTickets : list ESTicket) : gmap string ESTicket :=
  fold_left (fun m t => <[hashTicketKey (ID t) (Ref t) (Class_ t) := t]> m) esTickets ∅.

(** The loop of lines 136-138 started from any map [m]. *)
Definition insertAll (esTickets : list ESTicket) (m : gmap string ESTicket)
    : gmap string ESTicket :=
  fold_left (fun m t => <[identityHash t := t]> m) esTickets m.

(** main.go:141-150, the loop over the mapped tickets: [est] is the record
    [mapTicketToES] returned for the ticket at hand, whose [ID], [Ref] and
    [Class] it copies, so [key] is the hash the loop computes from the
    ticket.  The result is the list of records handed to [upsertESTicket],
    in order, and the map left when the loop ends. *)
Fixpoint syncTickets (targets : list ESTicket) (esTicketMap : gmap string ESTicket)
    : list ESTicket * gmap string ESTicket :=
  match targets with
  | [] => ([], esTicketMap)
  | est :: rest =>
      let key := hashTicketKey (ID est) (Ref est) (Class_ est) in
      let upsert :=
        match esTicketMap !! key with
        | Some old => negb (compareESTicket est old)
        | None => true
        end in
      let '(upserts, m) := syncTickets rest (delete key esTicketMap) in
      (if upsert then est :: upserts else upserts, m)
  end.

(** main.go:134-154 as a function of the target records and the current
    snapshot: the records to upsert and the records to delete.  Go visits
    the entries left in the map in an unspecified order; the list below
    uses the map's own enumeration. *)
Definition reconcile (target current : list ESTicket) : list ESTicket * list ESTicket :=
  let '(toUpsert, m) := syncTickets target (esTicketMapOf current) in
  (toUpsert, (map_to_list m).*2).

(** [result], main.go:107-111: what one fetching goroutine sends on the
    channel. *)
Record result := {
  class : string;
  tickets : list itop.Ticket;
  err : option string;
}.

(** main.go:120-130: the results are taken from the channel in the order
    they arrive; a failed class is logged and skipped. *)
Definition collect (results : list result) (s : State)
    : list itop.Ticket * gmap string nat * State :=
  fold_left
    (fun '(allTickets, countByClass, s) r =>
       match err r with
       | Some e =>
           (allTickets, countByClass,
            Printf ("Failed to fetch tickets from iTop (" +:+ class r +:+ "): " +:+ e) s)
       | None =>
           (allTickets ++ tickets r, <[class r := length (tickets r)]> countByClass, s)
       end)
    results ([], ∅, s).

(** main.go:141-150, one iteration of the loop over the fetched tickets. *)
Definition syncStep (conf : ESConfig) (holidayMap : gset string) (debug : bool)
    (acc : gmap string ESTicket * State) (t : itop.Ticket)
    : gmap string ESTicket * State :=
  let '(esTicketMap, s) := acc in
  let key := hashTicketKey (itop.ID t) (itop.Ref t) (itop.Class_ t) in
  let '(est, s) := mapTicketToES t holidayMap debug s in
  let s :=
    match esTicketMap !! key with
    | Some old => if negb (compareESTicket est old) then upsertESTicket conf est s else s
    | None => upsertESTicket conf est s
    end in
  (delete key esTicketMap, s).

(** main.go:120-131: the tickets of the classes that were fetched, and the
    line that counts them. *)
Definition collectTickets (results : list result) (s : State)
    : list itop.Ticket * State :=
  let '(allTickets, countByClass, s) := collect results s in
  (allTickets,
   Printf ("Parsed " +:+ pretty (default O (countByClass !! "Incident"))
           +:+ " tickets (Incident) and "
           +:+ pretty (default O (countByClass !! "UserRequest"))
           +:+ " tickets (UserRequest)") s).

(** One turn of the loop of [syncLoop], main.go:99-155, from the holidays
    read from the file and the results the fetching goroutines sent. *)
Definition syncCycle (conf : ESConfig) (debug : bool) (holidays : list string)
    (results : list result) (s : State) : State :=
  let holidayMap : gset string := list_to_set holidays in
  let '(allTickets, s) := collectTickets results s in
  let '(esTickets, s) := fetchAllESTickets conf s in
  let esTicketMap := esTicketMapOf esTickets in
  let '(esTicketMap, s) :=
    fold_left (syncStep conf holidayMap debug) allTickets (esTicketMap, s) in
  fold_left (fun s t => deleteESTicket conf t s) (map_to_list esTicketMap).*2 s.

(** The records [mapTicketToES] returns for a list of tickets handled one
    after the other, each call starting in the state the previous one
    left. *)
Fixpoint mapTickets (ts : list itop.Ticket) (holidayMap : gset string) (debug : bool)
    (s : State) : list ESTicket * State :=
  match ts with
  | [] => ([], s)
  | t :: rest =>
      let '(est, s) := mapTicketToES t holidayMap debug s in
      let '(ests, s) := mapTickets rest holidayMap debug s in
      (est :: ests, s)
  end.

(** Two states that agree on what the person-team resolver reads and
    writes: the cache, the ticks taken and the calls made. *)
Definition sameResolver (s s' : State) : Prop :=
  personTeamCache s = personTeamCache s' /\ ticks s = ticks s' /\ posted s = posted s'.



End Main.

(** ** The sink *)

(** Modelled from the spec: the search index behind [upsertESTicket] and
    [deleteESTicket] (section 6, sink write).  It holds documents, each
    under its [_id]; a PUT of [_doc/<id>] replaces the document stored under
    that id or adds one, a DELETE of [_doc/<id>] removes it and leaves the
    sink as it is when there is none. *)
Abbreviation Sink := (list (string * ESTicket)).

Inductive SinkCall :=
| SinkPut (id : string) (doc : ESTicket)
| SinkDelete (id : string).

Fixpoint sinkPut (id : string) (doc : ESTicket) (sink : Sink) : Sink :=
  match sink with
  | [] => [(id, doc)]
  | (id', doc') :: rest =>
      if String.eqb id' id then (id, doc) :: rest else (id', doc') :: sinkPut id doc rest
  end.

Definition sinkDelete (id : string) (sink : Sink) : Sink :=
  List.filter (fun d => negb (String.eqb (fst d) id)) sink.

Definition sinkServe (sink : Sink) (c : SinkCall) : Sink :=
  match c with
  | SinkPut id doc => sinkPut id doc sink
  | SinkDelete id => sinkDelete id sink
  end.

(** The call a request of the engine makes on the sink. *)
Definition upsertCall (t : ESTicket) : SinkCall :=
  SinkPut (hashTicketKey (ID t) (Ref t) (Class_ t)) t.

Definition deleteCall (t : ESTicket) : SinkCall :=
  SinkDelete (hashTicketKey (ID t) (Ref t) (Class_ t)).

Definition engineCall (c : SinkCall) : Prop :=
  exists t, c = upsertCall t \/ c = deleteCall t.


(** Every document sits under the identity hash of its own composite key,
    and no two documents share an id. *)
Definition sinkKeyed (sink : Sink) : Prop :=
  NoDup sink.*1 /\ Forall (fun d => d.1 = identityHash d.2) sink.

(** ** Package itop: fetching the tickets *)

(** [ParseTickets], declared in another file of package [itop]: the tickets
    it decodes from a response and the error it returns with them. *)
Class TicketParser := {
  ParseTickets : list byte -> list itop.Ticket * option string;
}.

(** [tickets[i].Class = class]. *)
Definition setClass (class : string) (t : itop.Ticket) : itop.Ticket :=
  {| itop.ID := itop.ID t; itop.Ref := itop.Ref t; itop.Class_ := class;
     itop.Title := itop.Title t; itop.Status := itop.Status t;
     itop.Priority := itop.Priority t; itop.Urgency := itop.Urgency t;
     itop.Impact := itop.Impact t; itop.ServiceID := itop.ServiceID t;
     itop.Service := itop.Service t;
     itop.ServiceSubcategory := itop.ServiceSubcategory t;
     itop.AgentID := itop.AgentID t; itop.Agent := itop.Agent t;
     itop.TeamID := itop.TeamID t; itop.Team := itop.Team t;
     itop.Caller := itop.Caller t; itop.Origin := itop.Origin t;
     itop.StartDate := itop.StartDate t; itop.AssignmentDate := itop.AssignmentDate t;
     itop.ResolutionDate := itop.ResolutionDate t;
     itop.TimeToResolve := itop.TimeToResolve t;
     itop.TimeToResponse := itop.TimeToResponse t |}.

(** The [params] of a ticket query, lines 27-31 and 62-66. *)
Definition ticketParams (class : string) : Params :=
  [("class", class);
   ("key", "SELECT " +:+ class);
   ("output_fields",
    "id,ref,title,origin,status,priority,urgency,impact,service_id,service_name,servicesubcategory_name,agent_id,agent_id_friendlyname,team_id,team_id_friendlyname,caller_id_friendlyname,start_date,assignment_date,resolution_date,sla_tto_passed,sla_ttr_passed")].

Section FetchTickets.
Context {env : Environ} {remote : itop.Remote} {parser : TicketParser}.

(** [FetchTicketsByClass], lines 13-42. *)
Definition FetchTicketsByClass (class : string) (s : State)
    : (list itop.Ticket * option string) * State :=
  if itop.credentialsMissing
  then (([], None), Printf "Missing iTop API environment variables" s)
  else
    let client := itop.personClient in
    let params := ticketParams class in
    let answer := itop.Post (posted s) client "core/get" params in
    let s := record_post params s in
    match answer with
    | inr err =>
        (([], Some err), Printf ("Error from iTop API (" +:+ class +:+ "): " +:+ err) s)
    | inl resp =>
        let '(tickets, err) := ParseTickets resp in
        ((setClass class <$> tickets, err), s)
    end.

(** One turn of the loop of [FetchTickets], lines 61-80. *)
Definition fetchClass (acc : list itop.Ticket * State) (class : string)
    : list itop.Ticket * State :=
  let '(allTickets, s) := acc in
  let client := itop.personClient in
  let params := ticketParams class in
  let answer := itop.Post (posted s) client "core/get" params in
  let s := record_post params s in
  match answer with
  | inr _ => (allTickets, s)
  | inl resp =>
      let '(tickets, _) := ParseTickets resp in
      let s := Printf ("Parsed " +:+ pretty (length tickets) +:+ " tickets from iTop ("
                       +:+ class +:+ ")") s in
      (allTickets ++ (setClass class <$> tickets), s)
  end.

(** [FetchTickets], lines 45-82. *)
Definition FetchTickets (s : State) : (list itop.Ticket * option string) * State :=
  if itop.credentialsMissing
  then (([], None), Printf "Missing iTop API environment variables" s)
  else
    let classes := ["Incident"; "UserRequest"] in
    let '(allTickets, s) := fold_left fetchClass classes ([], s) in
    ((allTickets, None), s).

End FetchTickets.

(** ** The two intervals *)

(** [time.ParseDuration], of Go's library. *)
Class DurationParser := {
  ParseDuration : string -> Duration + string;
  DurationString : Duration -> string;  (* Duration.String, as %v prints it *)
}.


Section Intervals.
Context {env : Environ} {durations : DurationParser}.


(** main.go:92-97: the interval [syncLoop] sleeps between two turns. *)
Definition syncInterval : Duration :=
  let interval := 3 * Second in
  let s := Getenv "SYNC_INTERVAL" in
  if negb (String.eqb s "") then
    match ParseDuration s with
    | inl d => d
    | inr _ => interval
    end
  else interval.

End Intervals.

(** ** Reading an escaped name back *)

(** The inverse of [itop.escapeQuotes]: a backslash followed by a double
    quote stands for the double quote. *)
Fixpoint unescapeQuotes (s : string) : string :=
  match s with
  | EmptyString => EmptyString
  | String c rest =>
      match rest with
      | String c' rest' =>
          if Ascii.eqb c (ascii_of_nat 92) && Ascii.eqb c' (ascii_of_nat 34)
          then String c' (unescapeQuotes rest')
          else String c (unescapeQuotes rest)
      | EmptyString => String c EmptyString
      end
  end.

(** ** Concrete collaborators

    Small instances of the collaborators, on which the functions above are
    run. *)
Module demo.

(** An environment with the iTop credentials set and nothing else. *)
Definition environ : Environ :=
  {| Getenv k :=
       if String.eqb k "ITOP_API_URL" then "http://itop.example/webservices/rest.php"
       else if String.eqb k "ITOP_API_USER" then "sync"
       else if String.eqb k "ITOP_API_PWD" then "secret"
       else "" |}.

(** A remote that answers with a page that is not JSON. *)
Definition garbled : itop.Remote :=
  {| itop.Post _ _ _ _ := inl (bytes_of_string "<html>");
     itop.Unmarshal _ := inr "invalid character '<' looking for beginning of value" |}.

(** Services under which every ticket has the same duration [window] over
    a work window and the same [deadline] for response and resolution;
    the i-th request gets the i-th of [answers], and 200 after them. *)
Definition services (window deadline : Duration) (answers : list HttpResult) : Services :=
  {| CalculateBusinessHourDuration _ _ _ _ _ := window;
     GetSLTDeadlineCached _ _ _ := {| itop.TTO := deadline; itop.TTR := deadline |};
     LoadLocation tz := Some tz;
     time_Local := "Local";
     Marshal t :=
       bytes_of_string (ID t +:+ "/" +:+ Ref t +:+ "/" +:+ Class_ t +:+ "/" +:+ Title t);
     UnmarshalHits _ := [];
     Do history _ := nth (length history) answers (Response 200 "") |}.

Definition hour : Duration := 3600 * Second.

Definition conf : ESConfig :=
  {| URL := "http://es.example:9200"; Username := ""; Password := "";
     Index := "tickets" |}.

Definition noon : Time := {| instant := 63000000000000000000; loc := "UTC" |}.

(** An incident without a caller, answered after [tto] and resolved after
    [ttr]. *)
Definition ticket (id ref : string) (tto ttr : Duration) : itop.Ticket :=
  {| itop.ID := id; itop.Ref := ref; itop.Class_ := "Incident";
     itop.Title := "Printer down"; itop.Status := "resolved";
     itop.Priority := "2"; itop.Urgency := "2"; itop.Impact := "3";
     itop.ServiceID := "7"; itop.Service := "Printing";
     itop.ServiceSubcategory := "Repair";
     itop.AgentID := "12"; itop.Agent := "Agent Smith";
     itop.TeamID := "3"; itop.Team := "Helpdesk";
     itop.Caller := ""; itop.Origin := "portal";
     itop.StartDate := noon; itop.AssignmentDate := noon; itop.ResolutionDate := noon;
     itop.TimeToResolve := ttr; itop.TimeToResponse := tto |}.

(** A sink record with the given composite key and title. *)
Definition record (id ref class title : string) : ESTicket :=
  {| ID := id; Ref := ref; Class_ := class; Title := title; Status := "new";
     Priority := "Low"; Urgency := "Low"; Impact := "A person";
     ServiceID := ""; ServiceName := ""; ServiceSubcategoryName := "";
     AgentID := ""; Agent := ""; TeamID := ""; Team := "";
     Caller := ""; CallerTeam := "-"; Origin := "";
     StartDate := None; AssignmentDate := None; ResolutionDate := None;
     TimeToResponseRaw := 0; TimeToResolveRaw := 0;
     SLAComplianceResponseRaw := ""; SLAComplianceResolveRaw := "";
     TimeToResponseBusinessHr := 0; TimeToResolveBusinessHr := 0;
     SLAComplianceResponseBusinessHour := ""; SLAComplianceResolveBusinessHour := "";
     TimeToResponse24BH := 0; TimeToResolve24BH := 0;
     SLAComplianceResponse24BH := ""; SLAComplianceResolve24BH := "" |}.

End demo.

(** * Properties *)

(** ** float64: a positive duration has a positive number of seconds

    [mapTicketToES] tests a duration both as an integer ([ttoBH > 0]) and
    through its seconds ([ttoBH.Seconds() > 0], [ttoBH.Seconds() == 0]).
    The two agree: for [0 < d], the sum [float64(sec) + float64(nsec)/1e9]
    is a positive float, because the conversions, the division by [1e9] and
    the sum never round a value of this magnitude down to zero. *)
Module Float64Facts.
Import float64.


(** [digits2_pos] counts binary digits. *)
Lemma Zdigits2_log2 (p : positive) : Zdigits2 (Zpos p) = Z.log2 (Zpos p) + 1.
Proof.
  simpl. induction p as [p IH | p IH |]; simpl; try reflexivity.
  - rewrite Pos2Z.inj_succ, IH. destruct p; simpl; lia.
  - rewrite Pos2Z.inj_succ, IH. destruct p; simpl; lia.
Qed.

Lemma shr_1_m (mrs : shr_record) :
  0 <= shr_m mrs -> shr_m (shr_1 mrs) = Z.div2 (shr_m mrs).
Proof.
  destruct mrs as [m r s]. simpl. intros Hm.
  destruct m as [| [p | p |] | p]; simpl; try reflexivity; lia.
Qed.

Lemma iter_pos_shr_1_m (p : positive) : forall mrs,
  0 <= shr_m mrs ->
  shr_m (SpecFloat.iter_pos shr_1 p mrs) = Z.shiftr (shr_m mrs) (Zpos p).
Proof.
  induction p as [p IH | p IH |]; intros mrs Hm; simpl SpecFloat.iter_pos.
  - assert (H1 : 0 <= shr_m (shr_1 mrs)).
    { rewrite shr_1_m by assumption. apply Z.div2_nonneg; assumption. }
    assert (H2 : 0 <= shr_m (SpecFloat.iter_pos shr_1 p (shr_1 mrs))).
    { rewrite IH by assumption. apply Z.shiftr_nonneg; assumption. }
    rewrite (IH _ H2), (IH _ H1), shr_1_m by assumption.
    rewrite Z.div2_spec, !Z.shiftr_shiftr by lia. f_equal. lia.
  - assert (H2 : 0 <= shr_m (SpecFloat.iter_pos shr_1 p mrs)).
    { rewrite IH by assumption. apply Z.shiftr_nonneg; assumption. }
    rewrite (IH _ H2), (IH _ Hm).
    rewrite !Z.shiftr_shiftr by lia. f_equal. lia.
  - rewrite shr_1_m by assumption. apply Z.div2_spec.
Qed.


Lemma fexp_lt (k : Z) : emin64 < k -> fexp prec emax k < k.
Proof. unfold fexp, emin64, SpecFloat.emin, prec, emax. lia. Qed.

Lemma fexp_ge (k : Z) : emin64 <= fexp prec emax k.
Proof. unfold fexp, emin64, SpecFloat.emin, prec, emax. lia. Qed.

Lemma Zdigits2_pos (m : Z) : 0 < m -> 0 < Zdigits2 m.
Proof. destruct m; simpl; lia. Qed.

Lemma Zdigits2_log2' (m : Z) : 0 < m -> Zdigits2 m = Z.log2 m + 1.
Proof. destruct m; try lia. intros _. apply Zdigits2_log2. Qed.

Lemma Zdigits2_mono (a b : Z) : 0 < a -> a <= b -> Zdigits2 a <= Zdigits2 b.
Proof.
  intros Ha Hab. rewrite !Zdigits2_log2' by lia.
  pose proof (Z.log2_le_mono a b Hab). lia.
Qed.

Lemma Zdigits2_shiftr (m n : Z) :
  0 < m -> 0 <= n -> n < Zdigits2 m ->
  0 < Z.shiftr m n /\ Zdigits2 (Z.shiftr m n) = Zdigits2 m - n.
Proof.
  intros Hm Hn Hlt. rewrite Zdigits2_log2' in Hlt by assumption.
  assert (Hpos : 0 < Z.shiftr m n).
  { rewrite Z.shiftr_div_pow2 by assumption.
    apply Z.div_str_pos. split; [apply Z.pow_pos_nonneg; lia |].
    pose proof (Z.log2_spec m Hm) as [Hlo _].
    eapply Z.le_trans; [| exact Hlo]. apply Z.pow_le_mono_r; lia. }
  split; [assumption |].
  rewrite (Zdigits2_log2' m), (Zdigits2_log2' _ Hpos) by assumption.
  rewrite Z.log2_shiftr by assumption. lia.
Qed.

Lemma Zdigits2_mul_pow2 (m n : Z) :
  0 < m -> 0 <= n -> Zdigits2 (m * 2 ^ n) = Zdigits2 m + n.
Proof.
  intros Hm Hn.
  assert (0 < m * 2 ^ n) by (apply Z.mul_pos_pos; [| apply Z.pow_pos_nonneg]; lia).
  rewrite !Zdigits2_log2' by assumption.
  rewrite Z.log2_mul_pow2 by lia. lia.
Qed.

(** The order of magnitude [Zdigits2 m + e] of a positive mantissa is kept
    by the right shift that brings it to its canonical exponent, as long
    as the value does not underflow. *)
Lemma shr_fexp_pos (m e : Z) (l : location) :
  0 < m -> emin64 < Zdigits2 m + e ->
  0 < shr_m (fst (shr_fexp prec emax m e l))
  /\ Zdigits2 (shr_m (fst (shr_fexp prec emax m e l))) + snd (shr_fexp prec emax m e l)
     = Zdigits2 m + e.
Proof.
  intros Hm Hk. unfold shr_fexp, shr.
  pose proof (fexp_lt _ Hk) as Hf.
  assert (Hrec : shr_m (shr_record_of_loc m l) = m) by (destruct l as [| []]; reflexivity).
  destruct (fexp prec emax (Zdigits2 m + e) - e) as [| p | p] eqn:Hn; simpl fst; simpl snd;
    rewrite ?Hrec; try (split; [assumption | reflexivity]).
  assert (H0 : 0 <= shr_m (shr_record_of_loc m l)) by lia.
  rewrite (iter_pos_shr_1_m p _ H0), Hrec.
  destruct (Zdigits2_shiftr m (Zpos p)) as [H1 H2]; lia.
Qed.

Lemma round_nearest_even_bounds (m : Z) (l : location) :
  m <= round_nearest_even m l <= m + 1.
Proof. destruct l as [| []]; simpl; try destruct (Z.even m); lia. Qed.

Lemma big_nonneg k x : big k x -> nonneg x.
Proof. destruct x as [| [] | | [] ? ?]; simpl; tauto. Qed.

Lemma binary_round_aux_big (k mx ex : Z) (lx : location) :
  0 < mx -> emin64 < k -> k <= Zdigits2 mx + ex ->
  big k (binary_round_aux prec emax false mx ex lx).
Proof.
  intros Hm Hk Hle. unfold binary_round_aux.
  destruct (shr_fexp_pos mx ex lx Hm ltac:(lia)) as [H1 H2].
  destruct (shr_fexp prec emax mx ex lx) as [mrs' e'] eqn:E1. simpl fst in *; simpl snd in *.
  set (m2 := round_nearest_even (shr_m mrs') (loc_of_shr_record mrs')).
  pose proof (round_nearest_even_bounds (shr_m mrs') (loc_of_shr_record mrs')) as Hr.
  fold m2 in Hr.
  assert (Hm2 : 0 < m2) by lia.
  assert (Hd2 : Zdigits2 (shr_m mrs') <= Zdigits2 m2) by (apply Zdigits2_mono; lia).
  destruct (shr_fexp_pos m2 e' loc_Exact Hm2 ltac:(lia)) as [H3 H4].
  destruct (shr_fexp prec emax m2 e' loc_Exact) as [mrs'' e''] eqn:E2.
  simpl fst in *; simpl snd in *.
  destruct (shr_m mrs'') as [| m | m]; try lia.
  destruct (e'' <=? emax - prec); cbn [big]; [lia | exact I].
Qed.

Lemma iter_xO_pow2 (m p : positive) : Zpos (Pos.iter xO m p) = Zpos m * 2 ^ Zpos p.
Proof.
  revert m. induction p as [| p IH] using Pos.peano_ind; intros m.
  - simpl. lia.
  - rewrite Pos.iter_succ, Pos2Z.inj_xO, IH, Pos2Z.inj_succ, Z.pow_succ_r by lia. lia.
Qed.

Lemma binary_round_big (k : Z) (m : positive) (e : Z) :
  emin64 < k -> k <= Zdigits2 (Zpos m) + e ->
  big k (binary_round prec emax false m e).
Proof.
  intros Hk Hle. unfold binary_round, shl_align.
  change (Zpos (digits2_pos m)) with (Zdigits2 (Zpos m)).
  destruct (fexp prec emax (Zdigits2 (Zpos m) + e) - e) as [| p | p] eqn:Hn;
    try (apply binary_round_aux_big; lia).
  apply binary_round_aux_big; try lia.
  rewrite iter_xO_pow2, Zdigits2_mul_pow2 by lia. lia.
Qed.

Lemma binary_normalize_big (k z e : Z) :
  0 < z -> emin64 < k -> k <= Zdigits2 z + e ->
  big k (binary_normalize prec emax z e false).
Proof.
  intros Hz Hk Hle. destruct z as [| m | m]; try lia.
  simpl. apply binary_round_big; assumption.
Qed.

(** The quotient of two positive mantissas, before rounding. *)
Lemma SFdiv_core_binary_big (m1 m2 : positive) (e1 e2 : Z) :
  let k := Zdigits2 (Zpos m1) + e1 - (Zdigits2 (Zpos m2) + e2) in
  emin64 < k ->
  0 < fst (fst (SFdiv_core_binary prec emax (Zpos m1) e1 (Zpos m2) e2))
  /\ k <= Zdigits2 (fst (fst (SFdiv_core_binary prec emax (Zpos m1) e1 (Zpos m2) e2)))
          + snd (fst (SFdiv_core_binary prec emax (Zpos m1) e1 (Zpos m2) e2)).
Proof.
  intros k Hk. unfold SFdiv_core_binary.
  set (d1 := Zdigits2 (Zpos m1)) in *. set (d2 := Zdigits2 (Zpos m2)) in *.
  fold k.
  set (e' := Z.min (fexp prec emax k) (e1 - e2)).
  set (s := e1 - e2 - e').
  pose proof (fexp_lt k Hk) as Hf.
  assert (Hs : d2 - d1 + 1 <= s /\ 0 <= s) by (unfold s, e', k in *; lia).
  set (m' := match s with Zpos _ => Z.shiftl (Zpos m1) s | Z0 => Zpos m1 | Zneg _ => 0 end).
  assert (Hm' : m' = Zpos m1 * 2 ^ s).
  { unfold m'. destruct s as [| p | p] eqn:Es; try lia.
    rewrite Z.shiftl_mul_pow2 by lia. reflexivity. }
  pose proof (Z_div_mod m' (Zpos m2) ltac:(lia)) as Hdm.
  destruct (Z.div_eucl m' (Zpos m2)) as [q r] eqn:Ed. simpl fst; simpl snd.
  destruct Hdm as [Hq Hr].
  set (t := d1 - 1 + s - d2).
  assert (Ht : 0 <= t) by (unfold t; lia).
  assert (H1 : 2 ^ (d1 - 1) <= Zpos m1).
  { unfold d1. rewrite Zdigits2_log2.
    replace (Z.log2 (Zpos m1) + 1 - 1) with (Z.log2 (Zpos m1)) by lia.
    apply Z.log2_spec. lia. }
  assert (H2 : Zpos m2 < 2 ^ d2).
  { unfold d2. rewrite Zdigits2_log2.
    replace (Z.log2 (Zpos m2) + 1) with (Z.succ (Z.log2 (Zpos m2))) by lia.
    apply Z.log2_spec. lia. }
  assert (Hd1 : 0 < d1) by (apply Zdigits2_pos; lia).
  assert (Hd2 : 0 < d2) by (apply Zdigits2_pos; lia).
  assert (H3 : 2 ^ t * Zpos m2 <= m').
  { rewrite Hm'.
    assert (Hp : 2 ^ (d1 - 1) * 2 ^ s = 2 ^ t * 2 ^ d2).
    { rewrite <- !Z.pow_add_r by lia. f_equal. unfold t. lia. }
    assert (0 < 2 ^ s) by (apply Z.pow_pos_nonneg; lia).
    assert (0 < 2 ^ t) by (apply Z.pow_pos_nonneg; lia).
    nia. }
  assert (H4 : 2 ^ t <= q).
  { assert (0 < 2 ^ t) by (apply Z.pow_pos_nonneg; lia). nia. }
  assert (Hqpos : 0 < q).
  { assert (0 < 2 ^ t) by (apply Z.pow_pos_nonneg; lia). lia. }
  split; [assumption |].
  rewrite Zdigits2_log2' by assumption.
  apply Z.log2_le_pow2 in H4; [| assumption].
  unfold t, s, k in *. lia.
Qed.

Lemma SFdiv_big (k : Z) (x : spec_float) (m2 : positive) (e2 : Z) :
  big k x -> emin64 < k - (Zdigits2 (Zpos m2) + e2) ->
  big (k - (Zdigits2 (Zpos m2) + e2)) (SFdiv prec emax x (S754_finite false m2 e2)).
Proof.
  intros Hx Hk. destruct x as [| [] | | [] m1 e1]; simpl in Hx; try contradiction.
  - exact I.
  - unfold SFdiv.
    destruct (SFdiv_core_binary_big m1 m2 e1 e2) as [Hq Hd];
      [change (Zdigits2 (Zpos m1)) with (Zpos (digits2_pos m1)); lia |].
    destruct (SFdiv_core_binary prec emax (Zpos m1) e1 (Zpos m2) e2) as [[q e'] l].
    simpl fst in *; simpl snd in *.
    apply binary_round_aux_big; try assumption.
    change (Zdigits2 (Zpos m1)) with (Zpos (digits2_pos m1)) in Hd. lia.
Qed.

Lemma big_positive k x : big k x -> positive_float x.
Proof. destruct x as [| [] | | [] ? ?]; simpl; tauto. Qed.

Lemma valid_exponent (s : bool) (m : positive) (e : Z) :
  valid_binary (S754_finite s m e) = true -> emin64 <= e.
Proof.
  unfold SpecFloat.valid_binary, bounded, canonical_mantissa.
  intros Hv. apply andb_prop in Hv as [Hc _]. apply Z.eqb_eq in Hc.
  rewrite <- Hc. apply fexp_ge.
Qed.

(** A sum of two non-negative floats, one of them positive, is positive. *)
Lemma SFadd_positive (x y : spec_float) :
  valid_binary x = true -> valid_binary y = true ->
  nonneg x -> nonneg y -> positive_float x \/ positive_float y ->
  positive_float (SFadd prec emax x y).
Proof.
  intros Vx Vy Nx Ny Hp.
  destruct x as [sx | [] | | [] mx ex]; simpl in Nx; try contradiction;
    destruct y as [sy | [] | | [] my ey]; simpl in Ny; try contradiction;
    simpl in Hp; try tauto; try exact I.
  apply valid_exponent in Vx, Vy.
  unfold SFadd, cond_Zopp.
  rewrite <- Pos2Z.inj_add.
  apply (big_positive (emin64 + 1)).
  apply binary_normalize_big; try lia.
  set (p := (_ + _)%positive).
  pose proof (Zdigits2_pos (Zpos p) ltac:(lia)). lia.
Qed.

Lemma SFltb_zero_positive (x : spec_float) :
  positive_float x -> SFltb (S754_zero false) x = true.
Proof. destruct x as [| [] | | [] ? ?]; simpl; tauto. Qed.

Lemma SFeqb_zero_positive (x : spec_float) :
  positive_float x -> SFeqb x (S754_zero false) = false.
Proof. destruct x as [| [] | | [] ? ?]; simpl; tauto. Qed.

(** [float64(x)] of a non-negative 64-bit integer. *)
Lemma Prim2SF_of_int64 (z : Z) :
  0 <= z < 2 ^ 63 ->
  Prim2SF (float64_of_int64 z) = binary_normalize prec emax z 0 false.
Proof.
  intros Hz. unfold float64_of_int64.
  destruct (Z.ltb_spec z 0); [lia |].
  rewrite of_uint63_spec, Uint63.of_Z_spec.
  rewrite Z.mod_small; [reflexivity |]. exact Hz.
Qed.

Lemma of_int64_nonneg (z : Z) :
  0 <= z < 2 ^ 63 -> nonneg (Prim2SF (float64_of_int64 z)).
Proof.
  intros Hz. rewrite Prim2SF_of_int64 by assumption.
  destruct (Z.eq_dec z 0) as [-> | Hne]; [exact I |].
  apply (big_nonneg 1). apply binary_normalize_big; try lia.
  - unfold emin64, SpecFloat.emin, prec, emax. lia.
  - pose proof (Zdigits2_pos z ltac:(lia)). lia.
Qed.

Lemma of_int64_big (z : Z) :
  0 < z < 2 ^ 63 -> big 1 (Prim2SF (float64_of_int64 z)).
Proof.
  intros Hz. rewrite Prim2SF_of_int64 by lia.
  apply binary_normalize_big; try lia.
  - unfold emin64, SpecFloat.emin, prec, emax. lia.
  - pose proof (Zdigits2_pos z ltac:(lia)). lia.
Qed.

(** A positive duration has a positive number of seconds. *)
Lemma Seconds_positive (d : Z) :
  0 < d < 2 ^ 63 -> positive_float (Prim2SF (Seconds d)).
Proof.
  intros Hd. unfold Seconds.
  assert (Hs : 0 < Second) by (unfold Second; lia).
  pose proof (Z.quot_rem d Second ltac:(lia)) as Hqr.
  pose proof (Z.rem_bound_pos d Second ltac:(lia) Hs) as Hr.
  assert (Hq : 0 <= Z.quot d Second) by (apply Z.quot_pos; lia).
  assert (Hq' : Z.quot d Second < 2 ^ 63).
  { assert (Z.quot d Second <= d) by (apply Z.quot_le_upper_bound; nia). lia. }
  assert (Hr' : Z.rem d Second < 2 ^ 63) by (unfold Second in *; lia).
  set (a := float64_of_int64 (Z.quot d Second)).
  set (b := float64_of_int64 (Z.rem d Second)).
  rewrite FloatAxioms.add_spec.
  assert (Hb : nonneg (Prim2SF (b / 1e9)) /\
               (0 < Z.rem d Second -> positive_float (Prim2SF (b / 1e9)))).
  { rewrite FloatAxioms.div_spec.
    change (Prim2SF 1e9%float) with (S754_finite false 8388608000000000 (-23)).
    destruct (Z.eq_dec (Z.rem d Second) 0) as [E0 | Hne].
    - unfold b. rewrite Prim2SF_of_int64, E0 by lia. simpl. split; [exact I | lia].
    - pose proof (of_int64_big (Z.rem d Second) ltac:(lia)) as Hbig. fold b in Hbig.
      apply (SFdiv_big 1 _ 8388608000000000 (-23)) in Hbig;
        [| unfold emin64, SpecFloat.emin, prec, emax; simpl; lia].
      split; [eapply big_nonneg | intros _; eapply big_positive]; exact Hbig. }
  destruct Hb as [Hb0 Hb1].
  apply SFadd_positive.
  - apply Prim2SF_valid.
  - apply Prim2SF_valid.
  - apply of_int64_nonneg. lia.
  - exact Hb0.
  - destruct (Z.eq_dec (Z.rem d Second) 0) as [E0 | Hne].
    + left. apply (big_positive 1). apply of_int64_big. lia.
    + right. apply Hb1. lia.
Qed.

Lemma Seconds_gt_zero (d : Z) : 0 < d < 2 ^ 63 -> (0 <? Seconds d)%float = true.
Proof.
  intros Hd. rewrite FloatAxioms.ltb_spec.
  change (Prim2SF 0%float) with (S754_zero false).
  apply SFltb_zero_positive, Seconds_positive, Hd.
Qed.

Lemma Seconds_neq_zero (d : Z) : 0 < d < 2 ^ 63 -> (Seconds d =? 0)%float = false.
Proof.
  intros Hd. rewrite FloatAxioms.eqb_spec.
  change (Prim2SF 0%float) with (S754_zero false).
  apply SFeqb_zero_positive, Seconds_positive, Hd.
Qed.

End Float64Facts.

(** ** Strings *)

Lemma string_app_assoc (a b c : string) : (a +:+ b) +:+ c = a +:+ (b +:+ c).
Proof.
  induction a as [| x a IH]; [reflexivity |].
  change (String x ((a +:+ b) +:+ c) = String x (a +:+ (b +:+ c))). now f_equal.
Qed.

Lemma string_app_length (a b : string) :
  String.length (a +:+ b) = (String.length a + String.length b)%nat.
Proof.
  induction a as [| x a IH]; [reflexivity |].
  change (S (String.length (a +:+ b)) = S (String.length a + String.length b)).
  now f_equal.
Qed.

(** ** The identity hash *)

Example sha1_abc :
  hex.EncodeToString (sha1.Sum (bytes_of_string "abc"))
  = "a9993e364706816aba3e25717850c26c9cd0d89d".
Proof. vm_compute. reflexivity. Qed.

Example sha1_two_blocks :
  hex.EncodeToString
    (sha1.Sum (bytes_of_string "abcdbcdecdefdefgefghfghighijhijkijkljklmklmnlmnomnopnopq"))
  = "84983e441c3bd26ebaae4aa1f95129e5e54670f1".
Proof. vm_compute. reflexivity. Qed.

Example hashTicketKey_incident :
  hashTicketKey "42" "I-000042" "Incident" = "eb0b4711a3db4ae8557b2ad732ec386a44947a54".
Proof. vm_compute. reflexivity. Qed.

(** C9.  The identity hash is a function of the composite key, so equal keys
    have equal digests; it is not injective on keys: the key is joined with
    ":" and hashed as one string, so moving a ":" from the id to the ref
    gives a different key with the same digest. *)
Theorem hashTicketKey_deterministic_not_injective :
  (forall id ref class id' ref' class' : string,
      (id, ref, class) = (id', ref', class') ->
      hashTicketKey id ref class = hashTicketKey id' ref' class')
  /\ (forall a b c class : string,
        (a +:+ ":" +:+ b, c, class) <> (a, b +:+ ":" +:+ c, class)
        /\ hashTicketKey (a +:+ ":" +:+ b) c class = hashTicketKey a (b +:+ ":" +:+ c) class).
Proof.
  split.
  - intros id ref class id' ref' class' [= -> -> ->]. reflexivity.
  - intros a b c class. split.
    + intros [= Ha _]. apply (f_equal String.length) in Ha.
      rewrite !string_app_length in Ha. simpl in Ha. lia.
    + unfold hashTicketKey. do 3 f_equal.
      now rewrite !string_app_assoc.
Qed.

Example hashTicketKey_collision :
  hashTicketKey "1:2" "3" "Incident" = "9b8b4b7c8aa11cc899e04e29d4baea8b58aa23bb"
  /\ hashTicketKey "1" "2:3" "Incident" = "9b8b4b7c8aa11cc899e04e29d4baea8b58aa23bb".
Proof. split; vm_compute; reflexivity. Qed.

(** ** The SLA verdicts of [mapTicketToES] *)

Lemma ltb_zero_zero : (0 <? Seconds 0)%float = false.
Proof. vm_compute. reflexivity. Qed.

Lemma eqb_zero_zero : (Seconds 0 =? 0)%float = true.
Proof. vm_compute. reflexivity. Qed.

(** The raw verdict, case by case. *)
Lemma complianceRaw_spec (deadline raw : Duration) :
  is_int64 raw ->
  (0 < deadline -> 0 < raw ->
   complianceRaw deadline (Seconds raw)
   = if (Seconds raw <=? Seconds deadline)%float then "comply" else "overdue")
  /\ (deadline = 0 \/ raw = 0 -> complianceRaw deadline (Seconds raw) = "").
Proof.
  intros [_ Hhi]. unfold complianceRaw. split.
  - intros Hd Hr.
    rewrite (proj2 (Z.ltb_lt 0 deadline) Hd), Float64Facts.Seconds_gt_zero by lia.
    reflexivity.
  - intros [-> | ->]; [reflexivity |].
    rewrite ltb_zero_zero, andb_false_r. reflexivity.
Qed.

(** The verdict over a work window, case by case, for a positive deadline. *)
Lemma complianceWindow_spec (deadline bh raw : Duration) :
  0 < deadline -> 0 <= bh < 2 ^ 63 -> 0 <= raw < 2 ^ 63 ->
  (0 < bh ->
   complianceWindow deadline bh (Seconds raw)
   = if (Seconds bh <=? Seconds deadline)%float then "comply" else "overdue")
  /\ (bh = 0 -> 0 < raw ->
      complianceWindow deadline bh (Seconds raw)
      = if (Seconds raw <=? Seconds deadline)%float then "comply" else "")
  /\ (bh = 0 -> raw = 0 -> complianceWindow deadline bh (Seconds raw) = "").
Proof.
  intros Hd Hbh Hraw. unfold complianceWindow.
  rewrite (proj2 (Z.ltb_lt 0 deadline) Hd). repeat split.
  - intros Hpos.
    rewrite (proj2 (Z.ltb_lt 0 bh) Hpos).
    rewrite (Float64Facts.Seconds_neq_zero bh), (Float64Facts.Seconds_gt_zero bh) by lia.
    destruct (Seconds bh <=? Seconds deadline)%float; reflexivity.
  - intros -> Hpos.
    rewrite eqb_zero_zero, ltb_zero_zero, (Float64Facts.Seconds_gt_zero raw) by lia.
    simpl. destruct (Seconds raw <=? Seconds deadline)%float; reflexivity.
  - intros -> ->. rewrite ltb_zero_zero, eqb_zero_zero. reflexivity.
Qed.

Lemma complianceRaw_values (deadline : Duration) (raw : float) :
  complianceRaw deadline raw = "comply"
  \/ complianceRaw deadline raw = "overdue"
  \/ complianceRaw deadline raw = "".
Proof. unfold complianceRaw. repeat case_match; auto. Qed.

Lemma complianceWindow_values (deadline bh : Duration) (raw : float) :
  complianceWindow deadline bh raw = "comply"
  \/ complianceWindow deadline bh raw = "overdue"
  \/ complianceWindow deadline bh raw = "".
Proof. unfold complianceWindow. repeat case_match; auto. Qed.

(** [comply] is only ever the outcome of a comparison with a positive
    deadline that a positive duration passed. *)
Lemma complianceRaw_comply (deadline : Duration) (raw : float) :
  complianceRaw deadline raw = "comply" ->
  0 < deadline /\ (0 <? raw)%float = true /\ (raw <=? Seconds deadline)%float = true.
Proof.
  unfold complianceRaw.
  destruct (Z.ltb_spec 0 deadline); simpl; [| discriminate].
  destruct (0 <? raw)%float; [| discriminate].
  destruct (raw <=? Seconds deadline)%float; [auto | discriminate].
Qed.

Lemma complianceWindow_comply (deadline bh : Duration) (raw : float) :
  complianceWindow deadline bh raw = "comply" ->
  0 < deadline
  /\ ((0 < bh /\ (Seconds bh <=? Seconds deadline)%float = true)
      \/ ((Seconds bh =? 0)%float = true /\ (0 <? raw)%float = true
          /\ (raw <=? Seconds deadline)%float = true)).
Proof.
  unfold complianceWindow.
  destruct (Z.ltb_spec 0 deadline); [| discriminate].
  destruct (Z.ltb_spec 0 bh); simpl.
  - destruct (Seconds bh <=? Seconds deadline)%float; simpl; [auto |].
    destruct (Seconds bh =? 0)%float; simpl.
    + destruct (0 <? raw)%float; simpl.
      * destruct (raw <=? Seconds deadline)%float; [auto 10 |].
        destruct (0 <? Seconds bh)%float; discriminate.
      * destruct (0 <? Seconds bh)%float; discriminate.
    + destruct (0 <? Seconds bh)%float; discriminate.
  - destruct (Seconds bh =? 0)%float; simpl.
    + destruct (0 <? raw)%float; simpl.
      * destruct (raw <=? Seconds deadline)%float; [auto 10 |].
        destruct (0 <? Seconds bh)%float; discriminate.
      * destruct (0 <? Seconds bh)%float; discriminate.
    + destruct (0 <? Seconds bh)%float; discriminate.
Qed.

Section Verdicts.
Context {env : Environ} {remote : itop.Remote} {services : Services}.

(** Unfolds [mapTicketToES] down to the record it returns. *)
Ltac map_record :=
  unfold mapTicketToES, sltOf, ttoBHOf, ttrBHOf, tto24BHOf, ttr24BHOf;
  repeat case_match; reflexivity.

Lemma mapTicketToES_key t holidays debug s :
  compositeKey (mapTicketToES t holidays debug s).1
  = (itop.ID t, itop.Ref t, itop.Class_ t).
Proof. map_record. Qed.

Lemma mapTicketToES_raw t holidays debug s :
  TimeToResponseRaw (mapTicketToES t holidays debug s).1 = Seconds (itop.TimeToResponse t)
  /\ TimeToResolveRaw (mapTicketToES t holidays debug s).1 = Seconds (itop.TimeToResolve t).
Proof. split; map_record. Qed.

Lemma mapTicketToES_SLAComplianceResponseRaw t holidays debug s :
  SLAComplianceResponseRaw (mapTicketToES t holidays debug s).1
  = complianceRaw (itop.TTO (sltOf t)) (Seconds (itop.TimeToResponse t)).
Proof. map_record. Qed.

Lemma mapTicketToES_SLAComplianceResolveRaw t holidays debug s :
  SLAComplianceResolveRaw (mapTicketToES t holidays debug s).1
  = complianceRaw (itop.TTR (sltOf t)) (Seconds (itop.TimeToResolve t)).
Proof. map_record. Qed.

Lemma mapTicketToES_SLAComplianceResponseBusinessHour t holidays debug s :
  SLAComplianceResponseBusinessHour (mapTicketToES t holidays debug s).1
  = complianceWindow (itop.TTO (sltOf t)) (ttoBHOf t holidays)
      (Seconds (itop.TimeToResponse t)).
Proof. map_record. Qed.

Lemma mapTicketToES_SLAComplianceResolveBusinessHour t holidays debug s :
  SLAComplianceResolveBusinessHour (mapTicketToES t holidays debug s).1
  = complianceWindow (itop.TTR (sltOf t)) (ttrBHOf t holidays)
      (Seconds (itop.TimeToResolve t)).
Proof. map_record. Qed.

Lemma mapTicketToES_SLAComplianceResponse24BH t holidays debug s :
  SLAComplianceResponse24BH (mapTicketToES t holidays debug s).1
  = complianceWindow (itop.TTO (sltOf t)) (tto24BHOf t holidays)
      (Seconds (itop.TimeToResponse t)).
Proof. map_record. Qed.

Lemma mapTicketToES_SLAComplianceResolve24BH t holidays debug s :
  SLAComplianceResolve24BH (mapTicketToES t holidays debug s).1
  = complianceWindow (itop.TTR (sltOf t)) (ttr24BHOf t holidays)
      (Seconds (itop.TimeToResolve t)).
Proof. map_record. Qed.

End Verdicts.

Section VerdictClaims.
Context {env : Environ} {remote : itop.Remote} {services : Services}.

(** C5.  For a ticket whose durations are 64-bit: with a positive deadline
    and a positive raw duration the raw verdict is [comply] when the raw
    duration, in seconds, is at most the deadline and [overdue] otherwise;
    with a zero deadline or a zero raw duration it is the empty string
    (unknown).  This holds for the response and for the resolution. *)
Theorem raw_compliance_verdict (t : itop.Ticket) (holidays : gset string)
    (debug : bool) (s : State) :
  let est := (mapTicketToES t holidays debug s).1 in
  is_int64 (itop.TimeToResponse t) -> is_int64 (itop.TimeToResolve t) ->
  (0 < itop.TTO (sltOf t) -> 0 < itop.TimeToResponse t ->
   SLAComplianceResponseRaw est
   = if (TimeToResponseRaw est <=? Seconds (itop.TTO (sltOf t)))%float
     then "comply" else "overdue")
  /\ (0 < itop.TTR (sltOf t) -> 0 < itop.TimeToResolve t ->
      SLAComplianceResolveRaw est
      = if (TimeToResolveRaw est <=? Seconds (itop.TTR (sltOf t)))%float
        then "comply" else "overdue")
  /\ (itop.TTO (sltOf t) = 0 \/ itop.TimeToResponse t = 0 ->
      SLAComplianceResponseRaw est = "")
  /\ (itop.TTR (sltOf t) = 0 \/ itop.TimeToResolve t = 0 ->
      SLAComplianceResolveRaw est = "").
Proof.
  intros est Hto Htr. subst est.
  destruct (mapTicketToES_raw t holidays debug s) as [-> ->].
  rewrite mapTicketToES_SLAComplianceResponseRaw, mapTicketToES_SLAComplianceResolveRaw.
  destruct (complianceRaw_spec (itop.TTO (sltOf t)) _ Hto) as [H1 H2].
  destruct (complianceRaw_spec (itop.TTR (sltOf t)) _ Htr) as [H3 H4].
  auto.
Qed.

(** C1, as the code has it.  For a ticket whose durations are 64-bit and
    not negative, and a positive deadline: when the business-hour
    duration is positive the business-hour verdict is [comply] if that
    duration is at most the deadline and [overdue] otherwise; when it is
    zero and the raw duration is positive the verdict is [comply] if the
    raw duration is at most the deadline and the empty string (unknown)
    otherwise; when both are zero the verdict is the empty string. *)
Theorem window_compliance_verdict (t : itop.Ticket) (holidays : gset string)
    (debug : bool) (s : State) :
  let est := (mapTicketToES t holidays debug s).1 in
  0 <= ttoBHOf t holidays < 2 ^ 63 -> 0 <= ttrBHOf t holidays < 2 ^ 63 ->
  0 <= itop.TimeToResponse t < 2 ^ 63 -> 0 <= itop.TimeToResolve t < 2 ^ 63 ->
  (0 < itop.TTO (sltOf t) ->
   (0 < ttoBHOf t holidays ->
    SLAComplianceResponseBusinessHour est
    = if (TimeToResponseBusinessHr est <=? Seconds (itop.TTO (sltOf t)))%float
      then "comply" else "overdue")
   /\ (ttoBHOf t holidays = 0 -> 0 < itop.TimeToResponse t ->
       SLAComplianceResponseBusinessHour est
       = if (TimeToResponseRaw est <=? Seconds (itop.TTO (sltOf t)))%float
         then "comply" else "")
   /\ (ttoBHOf t holidays = 0 -> itop.TimeToResponse t = 0 ->
       SLAComplianceResponseBusinessHour est = ""))
  /\ (0 < itop.TTR (sltOf t) ->
      (0 < ttrBHOf t holidays ->
       SLAComplianceResolveBusinessHour est
       = if (TimeToResolveBusinessHr est <=? Seconds (itop.TTR (sltOf t)))%float
         then "comply" else "overdue")
      /\ (ttrBHOf t holidays = 0 -> 0 < itop.TimeToResolve t ->
          SLAComplianceResolveBusinessHour est
          = if (TimeToResolveRaw est <=? Seconds (itop.TTR (sltOf t)))%float
            then "comply" else "")
      /\ (ttrBHOf t holidays = 0 -> itop.TimeToResolve t = 0 ->
          SLAComplianceResolveBusinessHour est = "")).
Proof.
  intros est Hto Htr Hrto Hrtr. subst est.
  destruct (mapTicketToES_raw t holidays debug s) as [-> ->].
  rewrite mapTicketToES_SLAComplianceResponseBusinessHour,
    mapTicketToES_SLAComplianceResolveBusinessHour.
  assert (Hbh : TimeToResponseBusinessHr (mapTicketToES t holidays debug s).1
                = Seconds (ttoBHOf t holidays)
                /\ TimeToResolveBusinessHr (mapTicketToES t holidays debug s).1
                   = Seconds (ttrBHOf t holidays)).
  { split; unfold mapTicketToES, ttoBHOf, ttrBHOf; repeat case_match; reflexivity. }
  destruct Hbh as [-> ->].
  split; intros Hd.
  - exact (complianceWindow_spec _ _ _ Hd Hto Hrto).
  - exact (complianceWindow_spec _ _ _ Hd Htr Hrtr).
Qed.

(** C10.  Each of the six verdicts of a mapped record is "comply",
    "overdue" or the empty string, which stands for unknown.  Unknown is
    never turned into [comply]: a verdict is the empty string whenever the
    deadline is not positive, and it is [comply] only if the deadline is
    positive and a positive duration, the one over the window or the raw
    one, is at most the deadline. *)
Theorem verdict_values (t : itop.Ticket) (holidays : gset string)
    (debug : bool) (s : State) :
  let est := (mapTicketToES t holidays debug s).1 in
  let within (deadline : Duration) (observed : float) :=
    0 < deadline /\ (0 <? observed)%float = true
    /\ (observed <=? Seconds deadline)%float = true in
  let within_window (deadline bh : Duration) (raw : float) :=
    0 < deadline
    /\ ((0 < bh /\ (Seconds bh <=? Seconds deadline)%float = true)
        \/ ((Seconds bh =? 0)%float = true /\ (0 <? raw)%float = true
            /\ (raw <=? Seconds deadline)%float = true)) in
  Forall (fun v => v = "comply" \/ v = "overdue" \/ v = "")
    [SLAComplianceResponseRaw est; SLAComplianceResolveRaw est;
     SLAComplianceResponseBusinessHour est; SLAComplianceResolveBusinessHour est;
     SLAComplianceResponse24BH est; SLAComplianceResolve24BH est]
  /\ (itop.TTO (sltOf t) <= 0 ->
      SLAComplianceResponseRaw est = ""
      /\ SLAComplianceResponseBusinessHour est = ""
      /\ SLAComplianceResponse24BH est = "")
  /\ (itop.TTR (sltOf t) <= 0 ->
      SLAComplianceResolveRaw est = ""
      /\ SLAComplianceResolveBusinessHour est = ""
      /\ SLAComplianceResolve24BH est = "")
  /\ (SLAComplianceResponseRaw est = "comply" ->
      within (itop.TTO (sltOf t)) (TimeToResponseRaw est))
  /\ (SLAComplianceResolveRaw est = "comply" ->
      within (itop.TTR (sltOf t)) (TimeToResolveRaw est))
  /\ (SLAComplianceResponseBusinessHour est = "comply" ->
      within_window (itop.TTO (sltOf t)) (ttoBHOf t holidays) (TimeToResponseRaw est))
  /\ (SLAComplianceResolveBusinessHour est = "comply" ->
      within_window (itop.TTR (sltOf t)) (ttrBHOf t holidays) (TimeToResolveRaw est))
  /\ (SLAComplianceResponse24BH est = "comply" ->
      within_window (itop.TTO (sltOf t)) (tto24BHOf t holidays) (TimeToResponseRaw est))
  /\ (SLAComplianceResolve24BH est = "comply" ->
      within_window (itop.TTR (sltOf t)) (ttr24BHOf t holidays) (TimeToResolveRaw est)).
Proof.
  intros est within within_window. subst est within within_window.
  destruct (mapTicketToES_raw t holidays debug s) as [-> ->].
  rewrite mapTicketToES_SLAComplianceResponseRaw, mapTicketToES_SLAComplianceResolveRaw,
    mapTicketToES_SLAComplianceResponseBusinessHour,
    mapTicketToES_SLAComplianceResolveBusinessHour,
    mapTicketToES_SLAComplianceResponse24BH, mapTicketToES_SLAComplianceResolve24BH.
  assert (Hoff : forall deadline bh raw,
             deadline <= 0 ->
             complianceRaw deadline raw = "" /\ complianceWindow deadline bh raw = "").
  { intros deadline bh raw Hle. unfold complianceRaw, complianceWindow.
    destruct (Z.ltb_spec 0 deadline); [lia | auto]. }
  split.
  { repeat (apply List.Forall_cons;
              [first [apply complianceRaw_values | apply complianceWindow_values] |]).
    apply List.Forall_nil. }
  split.
  { intros Hle. split; [apply (Hoff _ 0 _ Hle) | split; apply (Hoff _ _ _ Hle)]. }
  split.
  { intros Hle. split; [apply (Hoff _ 0 _ Hle) | split; apply (Hoff _ _ _ Hle)]. }
  split; [apply complianceRaw_comply |].
  split; [apply complianceRaw_comply |].
  split; [apply complianceWindow_comply |].
  split; [apply complianceWindow_comply |].
  split; apply complianceWindow_comply.
Qed.

End VerdictClaims.

(** ** The person-team resolver *)

Section Resolver.
Context {env : Environ} {remote : itop.Remote}.

(** A lookup that misses the cache, for a name that is not empty and with
    the credentials set, calls the remote once, whatever it answers. *)
Lemma FetchPersonTeams_miss_posts (personName : string) (s : State) :
  personTeamCache s !! personName = None ->
  personName <> "" ->
  itop.credentialsMissing = false ->
  posted (itop.FetchPersonTeams personName s).2
  = posted s ++ [itop.personParams personName].
Proof.
  intros Hmiss Hne Hcred. unfold itop.FetchPersonTeams.
  rewrite Hmiss, (proj2 (String.eqb_neq _ _) Hne), Hcred.
  repeat case_match; reflexivity.
Qed.



End Resolver.

Section ResolverClaims.
Context {env : Environ} {remote : itop.Remote} {services : Services}.









(** C6, as the code has it.  When the cache has no entry for a non-empty
    name, the credentials are set, the remote answers and the answer fails
    to parse, the lookup returns "-" together with the parse error and
    leaves the cache as it was: nothing is stored under the name, and a
    later lookup that still finds no entry calls the remote again. *)
Theorem parse_failure_not_cached (personName : string) (s : State)
    (resp : list byte) (err : string) :
  personTeamCache s !! personName = None ->
  personName <> "" ->
  itop.credentialsMissing = false ->
  itop.Post (posted s) itop.personClient "core/get"
    (itop.personParams personName) = inl resp ->
  itop.Unmarshal resp = inr err ->
  (itop.FetchPersonTeams personName s).1 = ("-", Some err)
  /\ personTeamCache (itop.FetchPersonTeams personName s).2 = personTeamCache s
  /\ posted (itop.FetchPersonTeams personName s).2
     = posted s ++ [itop.personParams personName]
  /\ forall s', personTeamCache s' = personTeamCache (itop.FetchPersonTeams personName s).2 ->
                posted (itop.FetchPersonTeams personName s').2
                = posted s' ++ [itop.personParams personName].
Proof.
  intros Hmiss Hne Hcred Hpost Hparse.
  assert (Hrun : itop.FetchPersonTeams personName s
                 = (("-", Some err),
                    Printf ("Error parsing person teams response: " +:+ err)
                      (record_post (itop.personParams personName) (take_tick s)))).
  { unfold itop.FetchPersonTeams.
    rewrite Hmiss, (proj2 (String.eqb_neq _ _) Hne), Hcred.
    change (posted (take_tick s)) with (posted s).
    rewrite Hpost, Hparse. reflexivity. }
  rewrite Hrun. simpl. repeat split.
  intros s' Hs'. apply FetchPersonTeams_miss_posts; [| assumption | assumption].
  rewrite Hs'. exact Hmiss.
Qed.

(** C7.  [deleteESTicket] sends its request and then: on a 404 answer it
    logs nothing, as on an answer below 300; on any other answer of 300 or
    above it logs an "ES delete error" line with the body. *)
Theorem delete_absent_is_success (conf : ESConfig) (t : ESTicket) (s : State) :
  let answer := Do (sent s) (deleteRequest conf t) in
  sent (deleteESTicket conf t s) = sent s ++ [deleteRequest conf t]
  /\ (forall body, answer = Response 404 body ->
                   logged (deleteESTicket conf t s) = logged s)
  /\ (forall status body, answer = Response status body -> status < 300 ->
                          logged (deleteESTicket conf t s) = logged s)
  /\ (forall status body, answer = Response status body ->
                          300 <= status -> status <> 404 ->
                          logged (deleteESTicket conf t s)
                          = logged s ++ ["ES delete error: " +:+ body]).
Proof.
  intros answer. subst answer. unfold deleteESTicket, deleteOutcome.
  repeat split.
  - repeat case_match; reflexivity.
  - intros body ->. reflexivity.
  - intros status body -> Hlt.
    destruct (Z.leb_spec 300 status); [lia | reflexivity].
  - intros status body -> Hge Hne.
    destruct (Z.leb_spec 300 status); [| lia].
    destruct (Z.eqb_spec status 404); [contradiction | reflexivity].
Qed.

End ResolverClaims.

(** ** Reconciliation *)

Section Reconcile.
Context {services : Services}.

Lemma compareESTicket_refl (a : ESTicket) : compareESTicket a a = true.
Proof. unfold compareESTicket. apply bool_decide_eq_true. reflexivity. Qed.

Lemma compareESTicket_false (a b : ESTicket) :
  Marshal a <> Marshal b -> compareESTicket a b = false.
Proof. intros Hne. unfold compareESTicket. apply bool_decide_eq_false. exact Hne. Qed.

Lemma esTicketMapOf_insertAll (esTickets : list ESTicket) :
  esTicketMapOf esTickets = insertAll esTickets ∅.
Proof. reflexivity. Qed.

Lemma insertAll_lookup_Some esTickets m k v :
  insertAll esTickets m !! k = Some v ->
  (v ∈ esTickets /\ identityHash v = k) \/ m !! k = Some v.
Proof.
  revert m. induction esTickets as [| a l IH]; intros m; simpl; [auto |].
  intros Hl. apply IH in Hl as [[Hin Hk] | Hl].
  - left. split; [now apply list_elem_of_further | exact Hk].
  - destruct (decide (identityHash a = k)) as [<- | Hne].
    + rewrite lookup_insert_eq in Hl. injection Hl as <-.
      left. split; [apply list_elem_of_here | reflexivity].
    + rewrite lookup_insert_ne in Hl by exact Hne. now right.
Qed.

Lemma insertAll_lookup_other esTickets m k :
  k ∉ identityHash <$> esTickets -> insertAll esTickets m !! k = m !! k.
Proof.
  revert m. induction esTickets as [| a l IH]; intros m Hk; simpl; [reflexivity |].
  rewrite ?fmap_cons, not_elem_of_cons in Hk. destruct Hk as [Hne Hk].
  rewrite IH by exact Hk. apply lookup_insert_ne. congruence.
Qed.

Lemma insertAll_lookup_is_Some esTickets m k :
  k ∈ identityHash <$> esTickets \/ is_Some (m !! k) ->
  is_Some (insertAll esTickets m !! k).
Proof.
  revert m. induction esTickets as [| a l IH]; intros m; simpl.
  - intros [Hin | Hs]; [| exact Hs]. now apply elem_of_nil in Hin.
  - intros [Hin | Hs]; apply IH.
    + rewrite ?fmap_cons, elem_of_cons in Hin. destruct Hin as [-> | Hin]; [| now left].
      right. rewrite lookup_insert_eq. eauto.
    + right. destruct (decide (identityHash a = k)) as [<- | Hne].
      * rewrite lookup_insert_eq. eauto.
      * rewrite lookup_insert_ne by exact Hne. exact Hs.
Qed.

Lemma insertAll_lookup_NoDup esTickets m t :
  NoDup (identityHash <$> esTickets) -> t ∈ esTickets ->
  insertAll esTickets m !! identityHash t = Some t.
Proof.
  revert m. induction esTickets as [| a l IH]; intros m Hnd Hin; simpl.
  - now apply elem_of_nil in Hin.
  - rewrite ?fmap_cons in Hnd. apply NoDup_cons in Hnd as [Ha Hnd].
    apply elem_of_cons in Hin as [-> | Hin].
    + rewrite insertAll_lookup_other by exact Ha. apply lookup_insert_eq.
    + apply IH; assumption.
Qed.

(** The map [syncTickets] leaves: the entries of the targets are gone, the
    others are untouched. *)
Lemma syncTickets_map_target targets m k :
  k ∈ identityHash <$> targets -> (syncTickets targets m).2 !! k = None.
Proof.
  revert m. induction targets as [| a l IH]; intros m Hk; simpl.
  - now apply elem_of_nil in Hk.
  - destruct (syncTickets l (delete _ m)) as [ups m'] eqn:E. simpl.
    destruct (decide (k ∈ identityHash <$> l)) as [Hin | Hnin].
    + specialize (IH (delete (hashTicketKey (ID a) (Ref a) (Class_ a)) m) Hin).
      rewrite E in IH. exact IH.
    + rewrite ?fmap_cons, elem_of_cons in Hk. destruct Hk as [-> | Hk]; [| contradiction].
      clear IH. revert m ups m' E. induction l as [| b l IHl]; intros m ups m' E.
      * simpl in E. injection E as _ <-. apply lookup_delete_eq.
      * simpl in E.
        destruct (syncTickets l (delete _ (delete _ m))) as [ups2 m2] eqn:E2.
        injection E as _ <-.
        rewrite ?fmap_cons, not_elem_of_cons in Hnin. destruct Hnin as [Hne Hnin].
        rewrite delete_delete in E2.
        specialize (IHl Hnin (delete (hashTicketKey (ID b) (Ref b) (Class_ b)) m) _ _ E2).
        exact IHl.
Qed.

Lemma syncTickets_map_other targets m k :
  k ∉ identityHash <$> targets -> (syncTickets targets m).2 !! k = m !! k.
Proof.
  revert m. induction targets as [| a l IH]; intros m Hk; simpl; [reflexivity |].
  rewrite ?fmap_cons, not_elem_of_cons in Hk. destruct Hk as [Hne Hk].
  specialize (IH (delete (hashTicketKey (ID a) (Ref a) (Class_ a)) m) Hk).
  destruct (syncTickets l (delete _ m)) as [ups m'] eqn:E. simpl in *.
  rewrite IH. apply lookup_delete_ne. unfold identityHash in Hne. congruence.
Qed.

Lemma syncTickets_upserts_targets targets m t :
  t ∈ (syncTickets targets m).1 -> t ∈ targets.
Proof.
  revert m. induction targets as [| a l IH]; intros m; simpl.
  - intros Hin. now apply elem_of_nil in Hin.
  - specialize (IH (delete (hashTicketKey (ID a) (Ref a) (Class_ a)) m)).
    destruct (syncTickets l (delete _ m)) as [ups m'] eqn:E. simpl in *.
    case_match; intros Hin.
    + apply elem_of_cons in Hin as [-> | Hin];
        [apply list_elem_of_here | apply list_elem_of_further, IH, Hin].
    + apply list_elem_of_further, IH, Hin.
Qed.

(** Every target that has no counterpart in the map, or a counterpart with
    another content, is upserted. *)
Lemma syncTickets_complete targets m t :
  t ∈ targets ->
  m !! identityHash t = None
  \/ (exists old, m !! identityHash t = Some old /\ Marshal t <> Marshal old) ->
  t ∈ (syncTickets targets m).1.
Proof.
  revert m. induction targets as [| a l IH]; intros m Hin Hm; simpl.
  - now apply elem_of_nil in Hin.
  - specialize (IH (delete (hashTicketKey (ID a) (Ref a) (Class_ a)) m)).
    destruct (syncTickets l (delete _ m)) as [ups m'] eqn:E. simpl in *.
    apply elem_of_cons in Hin as [-> | Hin].
    + fold (identityHash a).
      destruct Hm as [-> | (old & -> & Hne)].
      * apply list_elem_of_here.
      * rewrite compareESTicket_false by exact Hne. apply list_elem_of_here.
    + assert (Hups : t ∈ ups).
      { apply IH; [exact Hin |].
        destruct (decide (hashTicketKey (ID a) (Ref a) (Class_ a) = identityHash t))
          as [Heq | Hne].
        - left. rewrite Heq. apply lookup_delete_eq.
        - rewrite lookup_delete_ne by exact Hne. exact Hm. }
      case_match; [now apply list_elem_of_further | exact Hups].
Qed.

(** When every target is its own counterpart, nothing is upserted. *)
Lemma syncTickets_same targets m :
  NoDup (identityHash <$> targets) ->
  (forall t, t ∈ targets -> m !! identityHash t = Some t) ->
  (syncTickets targets m).1 = [].
Proof.
  revert m. induction targets as [| a l IH]; intros m Hnd Hm; simpl; [reflexivity |].
  rewrite ?fmap_cons in Hnd. apply NoDup_cons in Hnd as [Ha Hnd].
  specialize (IH (delete (hashTicketKey (ID a) (Ref a) (Class_ a)) m) Hnd).
  destruct (syncTickets l (delete _ m)) as [ups m'] eqn:E. simpl in *.
  fold (identityHash a).
  rewrite (Hm a (list_elem_of_here _ _)), compareESTicket_refl. simpl.
  apply IH. intros t Ht.
  rewrite lookup_delete_ne.
  - apply Hm. now apply list_elem_of_further.
  - intros Heq. apply Ha. fold (identityHash a) in Heq. rewrite Heq.
    apply list_elem_of_fmap_2, Ht.
Qed.

End Reconcile.

(** ** The loop of [syncLoop] and [reconcile]

    [syncStep] interleaves the mapping of a ticket with the upsert of its
    record.  The requests it sends are the upserts [syncTickets] lists for
    the mapped records, in the same order: the sink calls change neither the
    cache nor what the resolver has asked, so the records are the ones
    [mapTickets] returns. *)
Section SyncLoop.
Context {env : Environ} {remote : itop.Remote} {services : Services}.

Lemma sameResolver_refl (s : State) : sameResolver s s.
Proof. repeat split. Qed.

Lemma FetchPersonTeams_sameResolver (name : string) (s s' : State) :
  sameResolver s s' ->
  (itop.FetchPersonTeams name s).1 = (itop.FetchPersonTeams name s').1
  /\ sameResolver (itop.FetchPersonTeams name s).2 (itop.FetchPersonTeams name s').2
  /\ sent (itop.FetchPersonTeams name s).2 = sent s.
Proof.
  destruct s as [c k p se l], s' as [c' k' p' se' l'].
  intros (Hc & Hk & Hp). simpl in Hc, Hk, Hp. subst c' k' p'.
  unfold itop.FetchPersonTeams, sameResolver. simpl.
  repeat case_match; simplify_eq/=; repeat split.
Qed.

Lemma mapTicketToES_sameResolver t holidays debug (s s' : State) :
  sameResolver s s' ->
  (mapTicketToES t holidays debug s).1 = (mapTicketToES t holidays debug s').1
  /\ sameResolver (mapTicketToES t holidays debug s).2 (mapTicketToES t holidays debug s').2
  /\ sent (mapTicketToES t holidays debug s).2 = sent s.
Proof.
  intros Hs.
  destruct (FetchPersonTeams_sameResolver (itop.Caller t) s s' Hs) as (H1 & H2 & H3).
  unfold mapTicketToES.
  destruct (negb (String.eqb (itop.Caller t) "")).
  - destruct (itop.FetchPersonTeams (itop.Caller t) s) as [[team e] s1].
    destruct (itop.FetchPersonTeams (itop.Caller t) s') as [[team' e'] s1'].
    simpl in H1, H2, H3. injection H1 as <- <-.
    destruct e as [e |]; [| destruct (negb (String.eqb team "-") && debug)];
      simpl; repeat split; solve [apply H2 | exact H3].
  - simpl. repeat split; solve [apply Hs].
Qed.

Lemma upsertESTicket_sent conf t (s : State) :
  sent (upsertESTicket conf t s) = sent s ++ [upsertRequest conf t]
  /\ sameResolver (upsertESTicket conf t s) s.
Proof. unfold upsertESTicket. repeat case_match; repeat split. Qed.

Lemma deleteESTicket_sent conf t (s : State) :
  sent (deleteESTicket conf t s) = sent s ++ [deleteRequest conf t].
Proof. unfold deleteESTicket. repeat case_match; reflexivity. Qed.

Lemma sameResolver_trans (s1 s2 s3 : State) :
  sameResolver s1 s2 -> sameResolver s2 s3 -> sameResolver s1 s3.
Proof. intros (? & ? & ?) (? & ? & ?). repeat split; congruence. Qed.

(** The loop of main.go:141-150 against the list of the records it maps. *)
Lemma syncStep_syncTickets conf holidayMap debug (ts : list itop.Ticket) :
  forall (m : gmap string ESTicket) (s s' : State),
    sameResolver s s' ->
    let run := fold_left (syncStep conf holidayMap debug) ts (m, s) in
    let ests := (mapTickets ts holidayMap debug s').1 in
    run.1 = (syncTickets ests m).2
    /\ sent run.2 = sent s ++ (upsertRequest conf <$> (syncTickets ests m).1).
Proof.
  induction ts as [| t ts IH]; intros m s s' Hs; simpl.
  - rewrite app_nil_r. split; reflexivity.
  - destruct (mapTicketToES_sameResolver t holidayMap debug s s' Hs) as (Hest & Hs1 & Hsent).
    pose proof (mapTicketToES_key t holidayMap debug s) as Hkey.
    destruct (mapTicketToES t holidayMap debug s) as [est s1].
    destruct (mapTicketToES t holidayMap debug s') as [est' s1'].
    simpl in Hest, Hs1, Hsent, Hkey. subst est'.
    unfold compositeKey in Hkey. injection Hkey as <- <- <-.
    set (key := hashTicketKey (ID est) (Ref est) (Class_ est)).
    set (s2 := match m !! key with
               | Some old => if negb (compareESTicket est old)
                             then upsertESTicket conf est s1 else s1
               | None => upsertESTicket conf est s1
               end).
    assert (Hs2 : sameResolver s2 s1' /\
                  sent s2 = sent s ++
                    (if match m !! key with
                        | Some old => negb (compareESTicket est old)
                        | None => true
                        end then [upsertRequest conf est] else [])).
    { unfold s2. destruct (upsertESTicket_sent conf est s1) as (Hu1 & Hu2).
      destruct (m !! key) as [old |]; [destruct (negb (compareESTicket est old)) |].
      - split; [eapply sameResolver_trans; eassumption | rewrite Hu1, Hsent; reflexivity].
      - split; [assumption | rewrite Hsent, app_nil_r; reflexivity].
      - split; [eapply sameResolver_trans; eassumption | rewrite Hu1, Hsent; reflexivity]. }
    destruct Hs2 as (Hs2 & Hsent2).
    specialize (IH (delete key m) s2 s1' Hs2). simpl in IH.
    destruct (mapTickets ts holidayMap debug s1') as [ests s3]. simpl in *.
    destruct IH as (IH1 & IH2).
    unfold key in *. clear key.
    destruct (syncTickets ests (delete _ m)) as [ups m'] eqn:E. simpl in *.
    split; [exact IH1 |].
    rewrite IH2, Hsent2.
    destruct (match m !! _ with
              | Some old => negb (compareESTicket est old)
              | None => true
              end); simpl; rewrite <- app_assoc; reflexivity.
Qed.

(** One turn of [syncLoop] sends the search, then the upserts and the
    deletes [reconcile] computes from the mapped tickets and the records the
    search returned. *)
Lemma syncCycle_sent conf debug holidays results (s : State) :
  let allTickets := (collectTickets results s).1 in
  let s0 := (collectTickets results s).2 in
  let esTickets := (fetchAllESTickets conf s0).1 in
  let targets :=
    (mapTickets allTickets (list_to_set holidays) debug (fetchAllESTickets conf s0).2).1 in
  sent (syncCycle conf debug holidays results s)
  = sent s0 ++ [searchRequest conf]
    ++ (upsertRequest conf <$> (reconcile targets esTickets).1)
    ++ (deleteRequest conf <$> (reconcile targets esTickets).2).
Proof.
  intros allTickets s0 esTickets targets.
  unfold syncCycle.
  subst allTickets s0 esTickets targets.
  destruct (collectTickets results s) as [allTickets s0]. simpl.
  assert (Hfetch : sent (fetchAllESTickets conf s0).2 = sent s0 ++ [searchRequest conf]).
  { unfold fetchAllESTickets. case_match; reflexivity. }
  destruct (fetchAllESTickets conf s0) as [esTickets s2]. simpl in *.
  destruct (syncStep_syncTickets conf (list_to_set holidays) debug allTickets
              (esTicketMapOf esTickets) s2 s2 (sameResolver_refl s2)) as (Hm & Hsent).
  destruct (fold_left (syncStep conf (list_to_set holidays) debug) allTickets
              (esTicketMapOf esTickets, s2)) as [m s3].
  simpl in Hm, Hsent. unfold reconcile.
  destruct (syncTickets (mapTickets allTickets (list_to_set holidays) debug s2).1
              (esTicketMapOf esTickets)) as [ups m'].
  simpl in *. subst m'.
  assert (Hdel : forall (l : list ESTicket) (st : State),
             sent (fold_left (fun s t => deleteESTicket conf t s) l st)
             = sent st ++ (deleteRequest conf <$> l)).
  { induction l as [| d l IHl]; intros st; simpl; [now rewrite app_nil_r |].
    rewrite IHl, deleteESTicket_sent, <- app_assoc. reflexivity. }
  rewrite Hdel, Hsent, Hfetch, <- !app_assoc. reflexivity.
Qed.

End SyncLoop.

Section ReconcileClaims.
Context {env : Environ} {remote : itop.Remote} {services : Services}.

(** C2, as the code has it.  For every list of records with pairwise
    distinct identity hashes, reconciling it against a snapshot equal to
    itself upserts nothing and deletes nothing; and a turn of [syncLoop]
    whose mapped tickets and whose search result are both that list sends
    the search and no other request. *)
Theorem reconcile_idempotent (T : list ESTicket) :
  NoDup (identityHash <$> T) ->
  reconcile T T = ([], [])
  /\ forall conf debug holidays results (s : State),
       let allTickets := (collectTickets results s).1 in
       let s0 := (collectTickets results s).2 in
       (mapTickets allTickets (list_to_set holidays) debug
          (fetchAllESTickets conf s0).2).1 = T ->
       (fetchAllESTickets conf s0).1 = T ->
       sent (syncCycle conf debug holidays results s) = sent s0 ++ [searchRequest conf].
Proof.
  intros Hnd.
  assert (Hsame : reconcile T T = ([], [])).
  { unfold reconcile.
    pose proof (syncTickets_same T (esTicketMapOf T) Hnd) as Hups.
    assert (Hmap : (syncTickets T (esTicketMapOf T)).2 = ∅).
    { apply map_eq. intros k. rewrite lookup_empty.
      destruct (decide (k ∈ identityHash <$> T)) as [Hin | Hnin].
      - apply syncTickets_map_target, Hin.
      - rewrite syncTickets_map_other by exact Hnin.
        rewrite esTicketMapOf_insertAll, insertAll_lookup_other by exact Hnin.
        apply lookup_empty. }
    destruct (syncTickets T (esTicketMapOf T)) as [ups m]. simpl in *.
    rewrite Hups, Hmap.
    - rewrite map_to_list_empty. reflexivity.
    - intros t Ht. rewrite esTicketMapOf_insertAll.
      apply insertAll_lookup_NoDup; assumption. }
  split; [exact Hsame |].
  intros conf debug holidays results s allTickets s0 Htargets Hcurrent.
  rewrite syncCycle_sent. fold allTickets s0.
  rewrite Htargets, Hcurrent, Hsame. reflexivity.
Qed.


End ReconcileClaims.

(** ** The sink *)

Lemma sinkPut_ids (id : string) (doc : ESTicket) (sink : Sink) (x : string) :
  x ∈ (sinkPut id doc sink).*1 <-> x = id \/ x ∈ sink.*1.
Proof.
  induction sink as [| [id' doc'] rest IH]; simpl.
  - rewrite list_elem_of_singleton, elem_of_nil. tauto.
  - destruct (String.eqb_spec id' id) as [-> | Hne]; simpl.
    + rewrite !elem_of_cons. tauto.
    + rewrite !elem_of_cons, IH. tauto.
Qed.

Lemma sinkPut_keyed (doc : ESTicket) (sink : Sink) :
  sinkKeyed sink -> sinkKeyed (sinkPut (identityHash doc) doc sink).
Proof.
  intros [Hnd Hall]. induction sink as [| [id' doc'] rest IH]; simpl.
  - split; [apply NoDup_singleton | repeat constructor].
  - simpl in Hnd. apply NoDup_cons in Hnd as [Hid Hnd].
    apply Forall_cons in Hall as [Hd Hall].
    destruct (String.eqb_spec id' (identityHash doc)) as [-> | Hne]; simpl.
    + split; [apply NoDup_cons; auto | apply Forall_cons; auto].
    + destruct (IH Hnd Hall) as [IH1 IH2].
      split; [| apply Forall_cons; auto].
      apply NoDup_cons. split; [| exact IH1].
      rewrite sinkPut_ids. simpl in *. intros [Heq | Hin]; contradiction.
Qed.

Lemma sinkDelete_keyed (id : string) (sink : Sink) :
  sinkKeyed sink -> sinkKeyed (sinkDelete id sink).
Proof.
  intros [Hnd Hall]. unfold sinkDelete.
  induction sink as [| [id' doc'] rest IH]; simpl; [split; assumption |].
  simpl in Hnd. apply NoDup_cons in Hnd as [Hid Hnd].
  apply Forall_cons in Hall as [Hd Hall].
  destruct (IH Hnd Hall) as [IH1 IH2].
  destruct (negb (String.eqb id' id)); simpl; [| split; assumption].
  split; [| apply Forall_cons; auto].
  apply NoDup_cons. split; [| exact IH1].
  intros Hin. apply Hid. simpl in *.
  apply list_elem_of_fmap in Hin as (d & Hd1 & Hd').
  apply list_elem_of_In, List.filter_In in Hd' as [Hd' _].
  rewrite Hd1. apply list_elem_of_fmap_2, list_elem_of_In, Hd'.
Qed.

Lemma sinkServe_keyed (sink : Sink) (calls : list SinkCall) :
  sinkKeyed sink -> Forall engineCall calls -> sinkKeyed (fold_left sinkServe calls sink).
Proof.
  intros Hk Hcalls. revert sink Hk.
  induction Hcalls as [| c calls Hc _ IH]; intros sink Hk; simpl; [exact Hk |].
  apply IH. destruct Hc as [t [-> | ->]]; simpl.
  - apply sinkPut_keyed, Hk.
  - apply sinkDelete_keyed, Hk.
Qed.


Section SinkClaims.
Context {services : Services}.


End SinkClaims.

(** ** Runs on concrete inputs *)

(** A ticket answered after two hours and resolved after five, with a
    deadline of four hours: the response complies, the resolution is
    overdue. *)
Lemma raw_compliance_verdict_witness :
  let t := demo.ticket "42" "I-000042" (2 * demo.hour) (5 * demo.hour) in
  let est :=
    (mapTicketToES (env := demo.environ) (remote := demo.garbled)
       (services := demo.services demo.hour (4 * demo.hour) []) t ∅ false init_State).1 in
  SLAComplianceResponseRaw est = "comply" /\ SLAComplianceResolveRaw est = "overdue".
Proof.
  intros t est.
  destruct (raw_compliance_verdict (env := demo.environ) (remote := demo.garbled)
              (services := demo.services demo.hour (4 * demo.hour) [])
              t ∅ false init_State)
    as (Hresponse & Hresolve & _ & _).
  - vm_compute. split; [discriminate | reflexivity].
  - vm_compute. split; [discriminate | reflexivity].
  - fold est in Hresponse, Hresolve. split.
    + rewrite Hresponse by (vm_compute; reflexivity). vm_compute. reflexivity.
    + rewrite Hresolve by (vm_compute; reflexivity). vm_compute. reflexivity.
Defined.

(** The same ticket with one hour of business time and a deadline of four
    hours: both business-hour verdicts are [comply]. *)
Lemma window_compliance_verdict_witness :
  let t := demo.ticket "42" "I-000042" (2 * demo.hour) (5 * demo.hour) in
  let est :=
    (mapTicketToES (env := demo.environ) (remote := demo.garbled)
       (services := demo.services demo.hour (4 * demo.hour) []) t ∅ false init_State).1 in
  SLAComplianceResponseBusinessHour est = "comply"
  /\ SLAComplianceResolveBusinessHour est = "comply".
Proof.
  intros t est.
  destruct (window_compliance_verdict (env := demo.environ) (remote := demo.garbled)
              (services := demo.services demo.hour (4 * demo.hour) [])
              t ∅ false init_State)
    as (Hresponse & Hresolve).
  - vm_compute. split; [discriminate | reflexivity].
  - vm_compute. split; [discriminate | reflexivity].
  - vm_compute. split; [discriminate | reflexivity].
  - vm_compute. split; [discriminate | reflexivity].
  - fold est in Hresponse, Hresolve.
    destruct Hresponse as (Hresponse & _ & _); [vm_compute; reflexivity |].
    destruct Hresolve as (Hresolve & _ & _); [vm_compute; reflexivity |].
    split.
    + rewrite Hresponse by (vm_compute; reflexivity). vm_compute. reflexivity.
    + rewrite Hresolve by (vm_compute; reflexivity). vm_compute. reflexivity.
Defined.

(** C1 as stated fails.  A ticket answered after ten seconds of wall-clock
    time, none of it business time, with a deadline of five seconds: the
    deadline is positive, the business-hour duration is zero, the raw
    duration is positive and above the deadline, and the business-hour
    verdict is the empty string, not [overdue]. *)
Lemma window_fallback_counterexample :
  let services := demo.services 0 (5 * Second) [] in
  let t := demo.ticket "7" "I-000007" (10 * Second) (10 * Second) in
  let est :=
    (mapTicketToES (env := demo.environ) (remote := demo.garbled) (services := services)
       t ∅ false init_State).1 in
  0 < itop.TTO (sltOf (services := services) t)
  /\ ttoBHOf (env := demo.environ) (services := services) t ∅ = 0
  /\ (0 <? TimeToResponseRaw est)%float = true
  /\ (TimeToResponseRaw est <=? Seconds (itop.TTO (sltOf (services := services) t)))%float
     = false
  /\ SLAComplianceResponseBusinessHour est = ""
  /\ SLAComplianceResponseBusinessHour est <> "overdue".
Proof.
  vm_compute. repeat split; discriminate.
Qed.

(** A record mapped from a ticket: its verdicts under a four-hour deadline. *)
Lemma verdict_values_witness :
  let t := demo.ticket "42" "I-000042" (2 * demo.hour) (5 * demo.hour) in
  let est :=
    (mapTicketToES (env := demo.environ) (remote := demo.garbled)
       (services := demo.services demo.hour (4 * demo.hour) []) t ∅ false init_State).1 in
  Forall (fun v => v = "comply" \/ v = "overdue" \/ v = "")
    [SLAComplianceResponseRaw est; SLAComplianceResolveRaw est;
     SLAComplianceResponseBusinessHour est; SLAComplianceResolveBusinessHour est;
     SLAComplianceResponse24BH est; SLAComplianceResolve24BH est].
Proof.
  intros t est.
  exact (proj1 (verdict_values (env := demo.environ) (remote := demo.garbled)
                  (services := demo.services demo.hour (4 * demo.hour) [])
                  t ∅ false init_State)).
Defined.

(** Two keys that differ by where the ":" stands. *)
Lemma hashTicketKey_witness :
  ("12:34", "5", "Incident") <> ("12", "34:5", "Incident")
  /\ hashTicketKey "12:34" "5" "Incident" = hashTicketKey "12" "34:5" "Incident".
Proof.
  exact (proj2 hashTicketKey_deterministic_not_injective "12" "34" "5" "Incident").
Defined.


(** A lookup of "alice" whose answer is not JSON. *)
Lemma parse_failure_witness :
  (itop.FetchPersonTeams (env := demo.environ) (remote := demo.garbled)
     "alice" init_State).1
  = ("-", Some "invalid character '<' looking for beginning of value").
Proof.
  refine (proj1 (parse_failure_not_cached (env := demo.environ) (remote := demo.garbled)
                   "alice" init_State (bytes_of_string "<html>") _ _ _ _ _ _)).
  - vm_compute. reflexivity.
  - discriminate.
  - vm_compute. reflexivity.
  - reflexivity.
  - reflexivity.
Defined.

(** C6 as stated fails.  After the lookup of "alice" failed to parse, the
    cache has no entry for "alice", and the next lookup calls the remote a
    second time. *)
Lemma parse_failure_counterexample :
  let fetch := itop.FetchPersonTeams (env := demo.environ) (remote := demo.garbled) in
  let s1 := (fetch "alice" init_State).2 in
  let s2 := (fetch "alice" s1).2 in
  (fetch "alice" init_State).1.1 = "-"
  /\ personTeamCache s1 !! "alice" = None
  /\ length (posted s1) = 1%nat
  /\ length (posted s2) = 2%nat.
Proof.
  vm_compute. repeat split.
Qed.

(** A delete answered with 404 logs nothing. *)
Lemma delete_absent_witness :
  logged (deleteESTicket
            (services := demo.services 0 0 [Response 404 "not_found"])
            demo.conf (demo.record "42" "I-000042" "Incident" "Printer down") init_State)
  = [].
Proof.
  exact (proj1 (proj2 (delete_absent_is_success
                         (services := demo.services 0 0 [Response 404 "not_found"])
                         demo.conf (demo.record "42" "I-000042" "Incident" "Printer down")
                         init_State))
           "not_found" eq_refl).
Defined.

(** Two records with distinct identity hashes, reconciled against
    themselves. *)
Lemma reconcile_idempotent_witness :
  let T := [demo.record "1" "I-000001" "Incident" "Printer down";
            demo.record "2" "R-000002" "UserRequest" "New laptop"] in
  reconcile (services := demo.services 0 0 []) T T = ([], []).
Proof.
  intros T.
  apply (reconcile_idempotent (env := demo.environ) (remote := demo.garbled)).
  assert (Hd : bool_decide (NoDup (identityHash <$> T))) by (vm_compute; exact I).
  exact (bool_decide_unpack _ Hd).
Defined.

(** C2 as stated fails.  Two distinct records with distinct composite keys
    whose keys collide under the identity hash: reconciled against
    themselves, both are upserted. *)
Lemma reconcile_same_counterexample :
  let r1 := demo.record "1:2" "3" "Incident" "Printer down" in
  let r2 := demo.record "1" "2:3" "Incident" "New laptop" in
  compositeKey r1 <> compositeKey r2
  /\ reconcile (services := demo.services 0 0 []) [r1; r2] [r1; r2] = ([r1; r2], [])
  /\ reconcile (services := demo.services 0 0 []) [r1; r2] [r1; r2] <> ([], []).
Proof.
  vm_compute. repeat split; discriminate.
Qed.



Example one_record_per_key_run :
  let r1 := demo.record "1" "I-000001" "Incident" "Printer down" in
  let r1' := demo.record "1" "I-000001" "Incident" "Printer on fire" in
  let r2 := demo.record "2" "R-000002" "UserRequest" "New laptop" in
  fold_left sinkServe [upsertCall r1; upsertCall r2; upsertCall r1'; deleteCall r2] []
  = [(identityHash r1, r1')].
Proof. vm_compute. reflexivity. Qed.

(** * Further properties of the code *)

(** ** The identity hash is a 40-digit hexadecimal string *)

Lemma be_bytes_length (n : nat) (x : Z) : length (sha1.be_bytes n x) = n.
Proof. induction n as [| n IH]; simpl; [reflexivity | now rewrite IH]. Qed.

Lemma sha1_Sum_length (msg : list byte) : length (sha1.Sum msg) = 20%nat.
Proof.
  unfold sha1.Sum.
  destruct (sha1.blocks _ _ _) as [[[[h0 h1] h2] h3] h4].
  rewrite !length_app, !be_bytes_length. reflexivity.
Qed.

Lemma EncodeToString_length (src : list Z) :
  String.length (hex.EncodeToString src) = (2 * length src)%nat.
Proof. induction src as [| v rest IH]; simpl; [reflexivity | rewrite IH; lia]. Qed.

Lemma get_list_ascii (i : nat) (s : string) (c : ascii) :
  String.get i s = Some c -> c ∈ list_ascii_of_string s.
Proof.
  revert i. induction s as [| x s IH]; intros i; simpl; [discriminate |].
  destruct i as [| i].
  - intros [= ->]. apply list_elem_of_here.
  - intros Hg. apply list_elem_of_further, (IH i), Hg.
Qed.

Lemma hex_digit_in_table (n : Z) : hex.digit n ∈ list_ascii_of_string hex.hextable.
Proof.
  unfold hex.digit.
  destruct (String.get (Z.to_nat n) hex.hextable) as [c |] eqn:Hg.
  - eapply get_list_ascii, Hg.
  - apply list_elem_of_here.
Qed.

Lemma EncodeToString_digits (src : list Z) :
  Forall (fun c => c ∈ list_ascii_of_string hex.hextable)
    (list_ascii_of_string (hex.EncodeToString src)).
Proof.
  induction src as [| v rest IH]; simpl; [apply List.Forall_nil |].
  repeat (apply List.Forall_cons; [apply hex_digit_in_table |]). exact IH.
Qed.

(** X1.  Whatever the composite key, the identity hash is a string of
    exactly 40 characters, each one of 0-9 and a-f. *)
Theorem hashTicketKey_hex40 (id ref class : string) :
  String.length (hashTicketKey id ref class) = 40%nat
  /\ Forall (fun c => c ∈ list_ascii_of_string "0123456789abcdef")
       (list_ascii_of_string (hashTicketKey id ref class)).
Proof.
  unfold hashTicketKey. split.
  - rewrite EncodeToString_length, sha1_Sum_length. reflexivity.
  - apply EncodeToString_digits.
Qed.

(** ** Escaping a name for the query *)

Lemma string_app_String (c : ascii) (a b : string) :
  String c a +:+ b = String c (a +:+ b).
Proof. reflexivity. Qed.

Lemma string_app_inj_r (a b q : string) : a +:+ q = b +:+ q -> a = b.
Proof.
  revert b. induction a as [| x a IH]; intros b Heq.
  - destruct b as [| y b]; [reflexivity |].
    apply (f_equal String.length) in Heq.
    rewrite !string_app_length in Heq. simpl in Heq. lia.
  - destruct b as [| y b].
    + apply (f_equal String.length) in Heq.
      rewrite !string_app_length in Heq. simpl in Heq. lia.
    + rewrite !string_app_String in Heq. injection Heq as -> Heq.
      f_equal. apply IH, Heq.
Qed.

(** An escaped name never starts with a double quote. *)
Lemma escapeQuotes_head (s : string) :
  forall rest, itop.escapeQuotes s <> String (ascii_of_nat 34) rest.
Proof.
  intros rest. destruct s as [| c s]; simpl; [discriminate |].
  destruct (Ascii.eqb_spec c (ascii_of_nat 34)) as [-> | Hne].
  - discriminate.
  - intros [= Hc _]. contradiction.
Qed.

Lemma unescape_escapeQuotes (s : string) : unescapeQuotes (itop.escapeQuotes s) = s.
Proof.
  induction s as [| c s IH]; [reflexivity |].
  simpl itop.escapeQuotes.
  destruct (Ascii.eqb_spec c (ascii_of_nat 34)) as [-> | Hne].
  - simpl. rewrite IH. reflexivity.
  - destruct (itop.escapeQuotes s) as [| c' r] eqn:E.
    + simpl in IH. subst s. reflexivity.
    + change (unescapeQuotes (String c (String c' r)))
        with (if Ascii.eqb c (ascii_of_nat 92) && Ascii.eqb c' (ascii_of_nat 34)
              then String c' (unescapeQuotes r)
              else String c (unescapeQuotes (String c' r))).
      destruct (Ascii.eqb_spec c' (ascii_of_nat 34)) as [-> | Hne'].
      * exfalso. exact (escapeQuotes_head s r E).
      * rewrite andb_false_r, IH. reflexivity.
Qed.

(** X2.  In an escaped name every double quote comes right after a
    backslash; the name is changed only where it has a double quote: a
    name with none is returned as it is, backslashes included. *)
Theorem escapeQuotes_quotes_escaped (s : string) :
  (forall i, String.get i (itop.escapeQuotes s) = Some (ascii_of_nat 34) ->
             exists j, i = S j
                       /\ String.get j (itop.escapeQuotes s) = Some (ascii_of_nat 92))
  /\ (ascii_of_nat 34 ∉ list_ascii_of_string s -> itop.escapeQuotes s = s).
Proof.
  split.
  - induction s as [| c s IH]; intros i; simpl; [discriminate |].
    destruct (Ascii.eqb_spec c (ascii_of_nat 34)) as [-> | Hne].
    + destruct i as [| [| i]]; simpl.
      * discriminate.
      * intros _. exists O. split; reflexivity.
      * intros Hg. destruct (IH i Hg) as (j & -> & Hj).
        exists (S (S j)). split; [reflexivity | exact Hj].
    + destruct i as [| i]; simpl.
      * intros [= Hc]. contradiction.
      * intros Hg. destruct (IH i Hg) as (j & -> & Hj).
        exists (S j). split; [reflexivity | exact Hj].
  - induction s as [| c s IH]; simpl; [reflexivity |].
    rewrite not_elem_of_cons. intros [Hne Hnin].
    destruct (Ascii.eqb_spec c (ascii_of_nat 34)) as [-> | _]; [contradiction |].
    rewrite IH by exact Hnin. reflexivity.
Qed.

Section Query.
Context {env : Environ}.

(** X3.  The query of a person lookup determines the name: two names that
    differ never give the same [params], so a cache entry is never filled
    with the answer to another name's query. *)
Theorem personParams_injective (name1 name2 : string) :
  itop.personParams name1 = itop.personParams name2 -> name1 = name2.
Proof.
  unfold itop.personParams. intros [= Hkey].
  repeat apply String.app_inj in Hkey.
  apply string_app_inj_r in Hkey.
  rewrite <- (unescape_escapeQuotes name1), <- (unescape_escapeQuotes name2), Hkey.
  reflexivity.
Qed.

End Query.

(** ** The person-team cache *)

Section CacheFacts.
Context {env : Environ} {remote : itop.Remote}.



(** X4.  A lookup returns an error only together with "-", and then
    leaves the cache as it was.  A lookup that returns no error leaves its
    result in the cache under the name, unless the credentials are missing:
    then it returns "-" and leaves the cache as it was.  No lookup changes
    the entry of another name. *)
Theorem FetchPersonTeams_outcome (personName : string) (s : State) :
  let team := (itop.FetchPersonTeams personName s).1.1 in
  let err := (itop.FetchPersonTeams personName s).1.2 in
  let s' := (itop.FetchPersonTeams personName s).2 in
  (err <> None -> team = "-" /\ personTeamCache s' = personTeamCache s)
  /\ (err = None ->
      personTeamCache s' !! personName = Some team
      \/ (itop.credentialsMissing = true /\ team = "-"
          /\ personTeamCache s' = personTeamCache s))
  /\ (forall other, other <> personName ->
                    personTeamCache s' !! other = personTeamCache s !! other).
Proof.
  unfold itop.FetchPersonTeams.
  destruct (personTeamCache s !! personName) as [cached |] eqn:Hl; simpl.
  { repeat split; [congruence .. | now left]. }
  destruct (String.eqb personName ""); simpl.
  { repeat split; try congruence.
    - intros _. left. apply lookup_insert_eq.
    - intros other Hne. apply lookup_insert_ne. congruence. }
  destruct itop.credentialsMissing eqn:Hcred; simpl.
  { repeat split; try congruence. intros _. right. repeat split. }
  destruct (itop.Post _ _ _ _) as [resp | e]; simpl; [| repeat split; congruence].
  destruct (itop.Unmarshal resp) as [result | e]; simpl; [| repeat split; congruence].
  repeat case_match; simpl; repeat split; try congruence;
    try (intros _; left; apply lookup_insert_eq);
    intros other Hne; apply lookup_insert_ne; congruence.
Qed.

End CacheFacts.

Section ProcessFacts.
Context {env : Environ} {remote : itop.Remote} {services : Services}.






End ProcessFacts.

(** ** Durations, their seconds and the verdicts *)

Lemma SFleb_refl_positive (x : spec_float) :
  float64.positive_float x -> SFleb x x = true.
Proof.
  destruct x as [| [] | | [] m e]; simpl; try tauto.
  intros _. unfold SFleb, SFcompare.
  rewrite Z.compare_refl.
  change (Pos.compare_cont Eq m m) with (Pos.compare m m).
  rewrite Pos.compare_refl. reflexivity.
Qed.

Lemma Seconds_leb_refl (d : Duration) :
  0 < d < 2 ^ 63 -> (Seconds d <=? Seconds d)%float = true.
Proof.
  intros Hd. rewrite FloatAxioms.leb_spec.
  apply SFleb_refl_positive, Float64Facts.Seconds_positive, Hd.
Qed.

(** For a 64-bit duration that is not negative, the tests the mapping
    makes on its seconds agree with the tests on the duration itself. *)
Lemma Seconds_tests_nonneg (d : Duration) :
  0 <= d < 2 ^ 63 ->
  (0 <? Seconds d)%float = (0 <? d)
  /\ (Seconds d =? 0)%float = (d =? 0).
Proof.
  intros Hd. destruct (Z.eq_dec d 0) as [-> | Hne].
  - split; vm_compute; reflexivity.
  - rewrite Float64Facts.Seconds_gt_zero, Float64Facts.Seconds_neq_zero by lia.
    split; symmetry; [apply Z.ltb_lt | apply Z.eqb_neq]; lia.
Qed.

Lemma complianceRaw_at_deadline (deadline : Duration) :
  0 < deadline < 2 ^ 63 -> complianceRaw deadline (Seconds deadline) = "comply".
Proof.
  intros Hd. unfold complianceRaw.
  rewrite (proj2 (Z.ltb_lt 0 deadline)), Float64Facts.Seconds_gt_zero, Seconds_leb_refl
    by lia.
  reflexivity.
Qed.

Lemma complianceWindow_at_deadline (deadline : Duration) (raw : float) :
  0 < deadline < 2 ^ 63 -> complianceWindow deadline deadline raw = "comply".
Proof.
  intros Hd. unfold complianceWindow.
  rewrite (proj2 (Z.ltb_lt 0 deadline)), Seconds_leb_refl by lia.
  reflexivity.
Qed.

Lemma complianceWindow_as_raw (deadline d : Duration) :
  0 <= d < 2 ^ 63 ->
  complianceWindow deadline d (Seconds d) = complianceRaw deadline (Seconds d).
Proof.
  intros Hd. destruct (Z.ltb_spec 0 deadline) as [Hpos | Hle].
  - destruct (complianceWindow_spec deadline d d Hpos Hd Hd) as (Hw1 & _ & Hw3).
    destruct (complianceRaw_spec deadline d) as (Hr1 & Hr2); [unfold is_int64; lia |].
    destruct (Z.eq_dec d 0) as [-> | Hne].
    + rewrite Hw3, Hr2 by auto. reflexivity.
    + rewrite Hw1, Hr1 by lia. reflexivity.
  - unfold complianceWindow, complianceRaw.
    rewrite (proj2 (Z.ltb_ge 0 deadline) Hle). reflexivity.
Qed.

Lemma complianceWindow_zero (deadline raw : Duration) :
  0 <= raw < 2 ^ 63 ->
  complianceWindow deadline 0 (Seconds raw)
  = if String.eqb (complianceRaw deadline (Seconds raw)) "comply" then "comply" else "".
Proof.
  intros Hraw. destruct (Z.ltb_spec 0 deadline) as [Hpos | Hle].
  - destruct (complianceWindow_spec deadline 0 raw Hpos ltac:(lia) Hraw) as (_ & Hw2 & Hw3).
    destruct (complianceRaw_spec deadline raw) as (Hr1 & Hr2); [unfold is_int64; lia |].
    destruct (Z.eq_dec raw 0) as [-> | Hne].
    + rewrite Hw3, Hr2 by auto. reflexivity.
    + rewrite Hw2, Hr1 by lia.
      destruct (Seconds raw <=? Seconds deadline)%float; reflexivity.
  - unfold complianceWindow, complianceRaw.
    rewrite (proj2 (Z.ltb_ge 0 deadline) Hle). reflexivity.
Qed.

Section VerdictFacts.
Context {env : Environ} {remote : itop.Remote} {services : Services}.

(** X9.  The deadline is inclusive: a ticket whose raw duration is exactly
    its positive 64-bit deadline gets the raw verdict [comply], and a ticket
    whose business-hour duration is exactly the deadline gets the
    business-hour verdict [comply]; so for the response and for the
    resolution. *)
Theorem deadline_is_inclusive (t : itop.Ticket) (holidays : gset string)
    (debug : bool) (s : State) :
  let est := (mapTicketToES t holidays debug s).1 in
  (0 < itop.TTO (sltOf t) < 2 ^ 63 ->
   (itop.TimeToResponse t = itop.TTO (sltOf t) -> SLAComplianceResponseRaw est = "comply")
   /\ (ttoBHOf t holidays = itop.TTO (sltOf t) ->
       SLAComplianceResponseBusinessHour est = "comply"))
  /\ (0 < itop.TTR (sltOf t) < 2 ^ 63 ->
      (itop.TimeToResolve t = itop.TTR (sltOf t) -> SLAComplianceResolveRaw est = "comply")
      /\ (ttrBHOf t holidays = itop.TTR (sltOf t) ->
          SLAComplianceResolveBusinessHour est = "comply")).
Proof.
  intros est. subst est.
  rewrite mapTicketToES_SLAComplianceResponseRaw, mapTicketToES_SLAComplianceResolveRaw,
    mapTicketToES_SLAComplianceResponseBusinessHour,
    mapTicketToES_SLAComplianceResolveBusinessHour.
  split; intros Hd; split; intros ->;
    first [apply complianceRaw_at_deadline | apply complianceWindow_at_deadline]; exact Hd.
Qed.

(** X10.  The business-hour verdict against the raw verdict, for 64-bit
    durations that are not negative.  When the business-hour duration is
    the raw duration, the two verdicts are equal.  When the business-hour
    duration is zero, the business-hour verdict is [comply] if the raw
    verdict is and the empty string otherwise: it is never [overdue].  So
    for the response and for the resolution. *)
Theorem window_verdict_against_raw (t : itop.Ticket) (holidays : gset string)
    (debug : bool) (s : State) :
  let est := (mapTicketToES t holidays debug s).1 in
  0 <= itop.TimeToResponse t < 2 ^ 63 -> 0 <= itop.TimeToResolve t < 2 ^ 63 ->
  (ttoBHOf t holidays = itop.TimeToResponse t ->
   SLAComplianceResponseBusinessHour est = SLAComplianceResponseRaw est)
  /\ (ttrBHOf t holidays = itop.TimeToResolve t ->
      SLAComplianceResolveBusinessHour est = SLAComplianceResolveRaw est)
  /\ (ttoBHOf t holidays = 0 ->
      SLAComplianceResponseBusinessHour est
      = if String.eqb (SLAComplianceResponseRaw est) "comply" then "comply" else "")
  /\ (ttrBHOf t holidays = 0 ->
      SLAComplianceResolveBusinessHour est
      = if String.eqb (SLAComplianceResolveRaw est) "comply" then "comply" else "").
Proof.
  intros est Hto Htr. subst est.
  rewrite mapTicketToES_SLAComplianceResponseRaw, mapTicketToES_SLAComplianceResolveRaw,
    mapTicketToES_SLAComplianceResponseBusinessHour,
    mapTicketToES_SLAComplianceResolveBusinessHour.
  repeat split; intros ->;
    first [apply complianceWindow_as_raw | apply complianceWindow_zero]; assumption.
Qed.

End VerdictFacts.

(** ** Writes to the sink and the turn of [syncLoop] *)

Section SinkFacts.
Context {services : Services}.

(** X11.  [upsertESTicket] sends its request once and never again, and
    reports every failure: a transport error and any answer of 300 or
    above, 404 included, are logged; an answer below 300 logs nothing.  It
    leaves the cache, the ticks and the calls of the remote untouched. *)
Theorem upsert_reports_every_failure (conf : ESConfig) (t : ESTicket) (s : State) :
  let answer := Do (sent s) (upsertRequest conf t) in
  sent (upsertESTicket conf t s) = sent s ++ [upsertRequest conf t]
  /\ sameResolver (upsertESTicket conf t s) s
  /\ (forall e, answer = TransportError e ->
                logged (upsertESTicket conf t s)
                = logged s ++ ["Failed to upsert ES: " +:+ e])
  /\ (forall status body, answer = Response status body -> 300 <= status ->
                          logged (upsertESTicket conf t s)
                          = logged s ++ ["ES upsert error: " +:+ body])
  /\ (forall status body, answer = Response status body -> status < 300 ->
                          logged (upsertESTicket conf t s) = logged s).
Proof.
  intros answer. subst answer.
  destruct (upsertESTicket_sent conf t s) as (Hsent & Hres).
  split; [exact Hsent |]. split; [exact Hres |].
  unfold upsertESTicket. repeat split.
  - intros e ->. reflexivity.
  - intros status body -> Hge.
    destruct (Z.leb_spec 300 status); [reflexivity | lia].
  - intros status body -> Hlt.
    destruct (Z.leb_spec 300 status); [lia | reflexivity].
Qed.

(** With nothing in the snapshot, every target is upserted. *)
Lemma syncTickets_empty (targets : list ESTicket) :
  syncTickets targets ∅ = (targets, ∅).
Proof.
  induction targets as [| a l IH]; simpl; [reflexivity |].
  rewrite lookup_empty, delete_empty, IH. reflexivity.
Qed.

Lemma reconcile_empty (targets : list ESTicket) : reconcile targets [] = (targets, []).
Proof.
  unfold reconcile. change (esTicketMapOf []) with (∅ : gmap string ESTicket).
  rewrite syncTickets_empty, map_to_list_empty. reflexivity.
Qed.

(** The upserts keep the order of the targets. *)
Lemma syncTickets_upserts_sublist (targets : list ESTicket) (m : gmap string ESTicket) :
  (syncTickets targets m).1 `sublist_of` targets.
Proof.
  revert m. induction targets as [| a l IH]; intros m; simpl; [constructor |].
  specialize (IH (delete (hashTicketKey (ID a) (Ref a) (Class_ a)) m)).
  destruct (syncTickets l (delete _ m)) as [ups m']. simpl in *.
  case_match; [now apply sublist_skip | now apply sublist_cons].
Qed.

(** With targets of distinct hashes, an upserted record had no counterpart
    or one of another content. *)
Lemma syncTickets_minimal (targets : list ESTicket) (m : gmap string ESTicket)
    (t : ESTicket) :
  NoDup (identityHash <$> targets) ->
  t ∈ (syncTickets targets m).1 ->
  m !! identityHash t = None
  \/ (exists old, m !! identityHash t = Some old /\ Marshal t <> Marshal old).
Proof.
  revert m. induction targets as [| a l IH]; intros m Hnd; simpl.
  - intros Hin. now apply elem_of_nil in Hin.
  - rewrite ?fmap_cons in Hnd. apply NoDup_cons in Hnd as [Ha Hnd].
    pose proof (syncTickets_upserts_targets l
                  (delete (hashTicketKey (ID a) (Ref a) (Class_ a)) m) t) as Hsub.
    specialize (IH (delete (hashTicketKey (ID a) (Ref a) (Class_ a)) m) Hnd).
    destruct (syncTickets l (delete _ m)) as [ups m']. simpl in *.
    assert (Hrest : t ∈ ups ->
                    m !! identityHash t = None
                    \/ (exists old, m !! identityHash t = Some old
                                    /\ Marshal t <> Marshal old)).
    { intros Hin. specialize (IH Hin).
      rewrite lookup_delete_ne in IH; [exact IH |].
      intros Heq. apply Ha. fold (identityHash a) in Heq. rewrite Heq.
      apply list_elem_of_fmap_2, Hsub, Hin. }
    fold (identityHash a).
    destruct (m !! identityHash a) as [old |] eqn:Hl.
    + destruct (compareESTicket a old) eqn:Hcmp; simpl; [exact Hrest |].
      intros Hin. apply elem_of_cons in Hin as [-> | Hin]; [| auto].
      right. exists old. split; [exact Hl |].
      unfold compareESTicket in Hcmp. now apply bool_decide_eq_false in Hcmp.
    + intros Hin. apply elem_of_cons in Hin as [-> | Hin]; [now left | auto].
Qed.

(** What the loop leaves in the snapshot map, and so deletes. *)
Lemma syncTickets_left (target current : list ESTicket) (k : string) (v : ESTicket) :
  (syncTickets target (esTicketMapOf current)).2 !! k = Some v ->
  identityHash v = k
  /\ (k ∉ identityHash <$> target)
  /\ esTicketMapOf current !! k = Some v.
Proof.
  intros Hv.
  destruct (decide (k ∈ identityHash <$> target)) as [Hin | Hnin].
  - rewrite (syncTickets_map_target _ _ _ Hin) in Hv. discriminate.
  - rewrite (syncTickets_map_other _ _ _ Hnin) in Hv.
    pose proof Hv as Hv'. rewrite esTicketMapOf_insertAll in Hv'.
    apply insertAll_lookup_Some in Hv' as [[_ Hk] | Hl]; [auto |].
    rewrite lookup_empty in Hl. discriminate.
Qed.

(** X12.  No redundant write: when the targets have pairwise distinct
    identity hashes, every record [reconcile] upserts is a target whose
    hash is absent from the snapshot or whose serialized content differs
    from that of its counterpart; and the upserts come in the order of the
    targets. *)
Theorem reconcile_upserts_needed (target current : list ESTicket) :
  NoDup (identityHash <$> target) ->
  ((reconcile target current).1 `sublist_of` target)
  /\ (forall t, t ∈ (reconcile target current).1 ->
                identityHash t ∉ identityHash <$> current
                \/ (exists old, esTicketMapOf current !! identityHash t = Some old
                                /\ Marshal t <> Marshal old)).
Proof.
  intros Hnd. unfold reconcile.
  pose proof (syncTickets_upserts_sublist target (esTicketMapOf current)) as Hsub.
  pose proof (syncTickets_minimal target (esTicketMapOf current)) as Hmin.
  destruct (syncTickets target (esTicketMapOf current)) as [ups m]. simpl in *.
  split; [exact Hsub |].
  intros t Ht. destruct (Hmin t Hnd Ht) as [Hnone | Hold]; [left | now right].
  intros Hin.
  destruct (insertAll_lookup_is_Some current ∅ (identityHash t)) as [v Hv]; [now left |].
  rewrite esTicketMapOf_insertAll in Hnone. congruence.
Qed.

(** A record [reconcile] deletes is the record the snapshot map holds
    under its identity hash, and no target has that hash. *)
Lemma reconcile_deleted (target current : list ESTicket) (d : ESTicket) :
  d ∈ (reconcile target current).2 ->
  d ∈ current
  /\ esTicketMapOf current !! identityHash d = Some d
  /\ (identityHash d ∉ identityHash <$> target).
Proof.
  unfold reconcile.
  pose proof (syncTickets_left target current) as Hleft.
  destruct (syncTickets target (esTicketMapOf current)) as [ups m]. simpl in *.
  intros Hd. apply list_elem_of_fmap in Hd as ([k v] & -> & Hv).
  apply elem_of_map_to_list in Hv. simpl.
  destruct (Hleft k v Hv) as (<- & Hnin & Hl).
  split; [| split; assumption].
  rewrite esTicketMapOf_insertAll in Hl.
  apply insertAll_lookup_Some in Hl as [[Hin _] | Hl]; [exact Hin |].
  rewrite lookup_empty in Hl. discriminate.
Qed.

(** X13.  Every record [reconcile] deletes is a record of the snapshot,
    the one the snapshot map holds under its identity hash, and no target
    has that hash; and no two deleted records have the same hash, so a
    document is deleted at most once. *)
Theorem reconcile_deletes_stale (target current : list ESTicket) :
  (forall d, d ∈ (reconcile target current).2 ->
             d ∈ current
             /\ esTicketMapOf current !! identityHash d = Some d
             /\ identityHash d ∉ identityHash <$> target)
  /\ NoDup (identityHash <$> (reconcile target current).2).
Proof.
  split; [apply reconcile_deleted |].
  unfold reconcile.
  pose proof (syncTickets_left target current) as Hleft.
  destruct (syncTickets target (esTicketMapOf current)) as [ups m]. simpl in *.
  assert (Hkeys : identityHash <$> (map_to_list m).*2 = (map_to_list m).*1).
  { rewrite <- list_fmap_compose. apply Forall_fmap_ext_1, Forall_forall.
    intros [k v] Hkv. simpl.
    apply elem_of_map_to_list in Hkv. apply (Hleft k v Hkv). }
  rewrite Hkeys. apply NoDup_fst_map_to_list.
Qed.

End SinkFacts.

(** ** Reconciliation brings the sink to the targets *)

Lemma list_to_map_sinkPut (id : string) (doc : ESTicket) (sink : Sink) :
  (list_to_map (sinkPut id doc sink) : gmap string ESTicket)
  = <[id := doc]> (list_to_map sink).
Proof.
  induction sink as [| [id' doc'] rest IH]; simpl; [reflexivity |].
  destruct (String.eqb_spec id' id) as [-> | Hne]; simpl.
  - rewrite insert_insert_eq. reflexivity.
  - rewrite IH. apply insert_insert_ne. congruence.
Qed.

Lemma list_to_map_sinkDelete (id : string) (sink : Sink) :
  (list_to_map (sinkDelete id sink) : gmap string ESTicket)
  = delete id (list_to_map sink).
Proof.
  unfold sinkDelete.
  induction sink as [| [id' doc'] rest IH]; simpl; [now rewrite delete_empty |].
  destruct (String.eqb_spec id' id) as [-> | Hne]; simpl.
  - rewrite IH, delete_insert_eq. reflexivity.
  - rewrite IH, delete_insert_ne by congruence. reflexivity.
Qed.

Lemma list_to_map_upserts (ups : list ESTicket) (sink : Sink) :
  (list_to_map (fold_left sinkServe (upsertCall <$> ups) sink) : gmap string ESTicket)
  = insertAll ups (list_to_map sink).
Proof.
  revert sink. induction ups as [| u ups IH]; intros sink; simpl; [reflexivity |].
  rewrite IH, list_to_map_sinkPut. reflexivity.
Qed.

Lemma list_to_map_deletes (dels : list ESTicket) (sink : Sink) (k : string) :
  (list_to_map (fold_left sinkServe (deleteCall <$> dels) sink) : gmap string ESTicket) !! k
  = if decide (k ∈ identityHash <$> dels) then None
    else (list_to_map sink : gmap string ESTicket) !! k.
Proof.
  revert sink. induction dels as [| d dels IH]; intros sink; simpl.
  - destruct (decide (k ∈ [])) as [Hin | _]; [now apply elem_of_nil in Hin | reflexivity].
  - rewrite IH.
    destruct (decide (k ∈ identityHash <$> dels)) as [Hin | Hnin].
    + rewrite decide_True by now apply list_elem_of_further. reflexivity.
    + destruct (decide (identityHash d = k)) as [<- | Hne].
      * rewrite decide_True by apply list_elem_of_here.
        rewrite list_to_map_sinkDelete. apply lookup_delete_eq.
      * rewrite decide_False.
        -- rewrite list_to_map_sinkDelete. apply lookup_delete_ne. exact Hne.
        -- rewrite elem_of_cons. intros [Heq | Hin]; [congruence | contradiction].
Qed.

Lemma sinkKeyed_hashes (sink : Sink) :
  sinkKeyed sink -> identityHash <$> sink.*2 = sink.*1.
Proof.
  intros [_ Hall]. rewrite <- list_fmap_compose.
  apply Forall_fmap_ext_1. eapply Forall_impl; [exact Hall |].
  intros [id doc] Hid. simpl in *. now symmetry.
Qed.

(** The snapshot map of the documents of a sink is the sink itself, read
    as a map from ids to documents. *)
Lemma sinkKeyed_snapshot (sink : Sink) :
  sinkKeyed sink -> insertAll sink.*2 ∅ = list_to_map sink.
Proof.
  intros Hk. pose proof (sinkKeyed_hashes sink Hk) as Hh. destruct Hk as [Hnd Hall].
  apply map_eq. intros k.
  destruct (list_to_map sink !! k) as [d |] eqn:Hl.
  - apply elem_of_list_to_map in Hl; [| exact Hnd].
    assert (Hd : identityHash d = k).
    { rewrite Forall_forall in Hall. symmetry. apply (Hall (k, d) Hl). }
    rewrite <- Hd. apply insertAll_lookup_NoDup.
    + rewrite Hh. exact Hnd.
    + apply list_elem_of_fmap. exists (k, d). split; [reflexivity | exact Hl].
  - rewrite insertAll_lookup_other; [apply lookup_empty |].
    rewrite Hh. now apply not_elem_of_list_to_map.
Qed.

Lemma NoDup_fmap_eq {A B : Type} (f : A -> B) (l : list A) (x y : A) :
  NoDup (f <$> l) -> x ∈ l -> y ∈ l -> f x = f y -> x = y.
Proof.
  induction l as [| a l IH]; simpl; intros Hnd Hx Hy Heq.
  - now apply elem_of_nil in Hx.
  - apply NoDup_cons in Hnd as [Ha Hnd].
    apply elem_of_cons in Hx as [-> | Hx]; apply elem_of_cons in Hy as [-> | Hy].
    + reflexivity.
    + exfalso. apply Ha. rewrite Heq. apply list_elem_of_fmap_2, Hy.
    + exfalso. apply Ha. rewrite <- Heq. apply list_elem_of_fmap_2, Hx.
    + apply IH; assumption.
Qed.

Section Convergence.
Context {services : Services}.

(** X14.  Reconciliation converges.  Take a sink in which every document
    sits under the identity hash of its own key, its documents as the
    current snapshot, and targets with pairwise distinct identity hashes.
    Once the sink has served the upserts and then the deletes of
    [reconcile], its ids are exactly the identity hashes of the targets,
    and under the hash of each target it holds a document with the
    target's serialized content. *)
Theorem reconcile_converges (sink : Sink) (target : list ESTicket) :
  sinkKeyed sink ->
  NoDup (identityHash <$> target) ->
  let plan := reconcile target sink.*2 in
  let sink' :=
    fold_left sinkServe ((upsertCall <$> plan.1) ++ (deleteCall <$> plan.2)) sink in
  sinkKeyed sink'
  /\ sink'.*1 ≡ₚ identityHash <$> target
  /\ (forall t, t ∈ target ->
                exists d, (identityHash t, d) ∈ sink' /\ Marshal d = Marshal t).
Proof.
  intros Hk Hnd plan sink'.
  assert (Hk' : sinkKeyed sink').
  { apply sinkServe_keyed; [exact Hk |].
    apply Forall_app. split; apply Forall_fmap, Forall_forall; intros t _;
      exists t; auto. }
  pose proof (sinkKeyed_snapshot sink Hk) as Hsnap.
  pose proof (reconcile_deleted target sink.*2) as Hdel.
  pose proof (syncTickets_complete target (esTicketMapOf sink.*2)) as Hcomplete.
  pose proof (syncTickets_upserts_targets target (esTicketMapOf sink.*2)) as Hups.
  pose proof (syncTickets_upserts_sublist target (esTicketMapOf sink.*2)) as Hsub.
  pose proof (syncTickets_map_other target (esTicketMapOf sink.*2)) as Hkept.
  fold plan in Hdel.
  assert (Hplan1 : plan.1 = (syncTickets target (esTicketMapOf sink.*2)).1).
  { unfold plan, reconcile. destruct (syncTickets _ _). reflexivity. }
  assert (Hplan2 : plan.2
                   = (map_to_list (syncTickets target (esTicketMapOf sink.*2)).2).*2).
  { unfold plan, reconcile. destruct (syncTickets _ _). reflexivity. }
  rewrite <- Hplan1 in Hcomplete, Hups, Hsub.
  assert (Hm : esTicketMapOf sink.*2 = list_to_map sink).
  { rewrite esTicketMapOf_insertAll. exact Hsnap. }
  rewrite Hm in Hcomplete, Hkept.
  assert (Hndu : NoDup (identityHash <$> plan.1)).
  { eapply sublist_NoDup; [exact Hnd |]. apply fmap_sublist, Hsub. }
  assert (Hlook : forall k,
             (list_to_map sink' : gmap string ESTicket) !! k
             = if decide (k ∈ identityHash <$> plan.2) then None
               else insertAll plan.1 (list_to_map sink) !! k).
  { intros k. unfold sink'. rewrite fold_left_app, list_to_map_deletes.
    rewrite list_to_map_upserts. reflexivity. }
  assert (Hin_sink : forall k d, (k, d) ∈ sink' <->
                                 (list_to_map sink' : gmap string ESTicket) !! k = Some d).
  { intros k d. apply elem_of_list_to_map. apply Hk'. }
  assert (Hstale : forall k, k ∈ identityHash <$> plan.2 -> k ∉ identityHash <$> target).
  { intros k Hkd. apply list_elem_of_fmap in Hkd as (d & -> & Hd). apply (Hdel d Hd). }
  assert (Hhas : forall t, t ∈ target ->
                   exists d, (identityHash t, d) ∈ sink' /\ Marshal d = Marshal t).
  { intros t Ht.
    assert (Hnot : identityHash t ∉ identityHash <$> plan.2).
    { intros Hkd. apply (Hstale _ Hkd). apply list_elem_of_fmap_2, Ht. }
    assert (Hor : t ∈ plan.1
                  \/ exists old, (list_to_map sink : gmap string ESTicket) !! identityHash t
                                 = Some old /\ Marshal t = Marshal old).
    { destruct ((list_to_map sink : gmap string ESTicket) !! identityHash t)
        as [old |] eqn:Hl.
      - destruct (decide (Marshal t = Marshal old)) as [Heq | Hne].
        + right. exists old. split; [reflexivity | exact Heq].
        + left. apply Hcomplete; [exact Ht |]. right. exists old. split; [exact Hl | exact Hne].
      - left. apply Hcomplete; [exact Ht | left; exact Hl]. }
    destruct Hor as [Hu | (old & Hl & Heq)].
    - exists t. split; [| reflexivity].
      apply Hin_sink. rewrite Hlook, decide_False by exact Hnot.
      apply insertAll_lookup_NoDup; assumption.
    - destruct (decide (identityHash t ∈ identityHash <$> plan.1)) as [Hin | Hnin].
      + apply list_elem_of_fmap in Hin as (u & Hhu & Hu).
        assert (u = t) as ->.
        { apply (NoDup_fmap_eq identityHash target); auto. }
        exists t. split; [| reflexivity].
        apply Hin_sink. rewrite Hlook, decide_False by exact Hnot.
        apply insertAll_lookup_NoDup; assumption.
      + exists old. split; [| now symmetry].
        apply Hin_sink. rewrite Hlook, decide_False by exact Hnot.
        rewrite insertAll_lookup_other by exact Hnin. exact Hl. }
  split; [exact Hk' |]. split; [| exact Hhas].
  apply NoDup_Permutation; [apply Hk' | exact Hnd |].
  intros k. split.
  - intros Hkin. apply list_elem_of_fmap in Hkin as ([k' d] & -> & Hd). simpl.
    apply Hin_sink in Hd. rewrite Hlook in Hd.
    destruct (decide (k' ∈ identityHash <$> plan.2)) as [| Hnotdel]; [discriminate |].
    apply insertAll_lookup_Some in Hd as [[Hu <-] | Hl].
    + apply list_elem_of_fmap_2, Hups, Hu.
    + destruct (decide (k' ∈ identityHash <$> target)) as [Hin | Hnin]; [exact Hin |].
      exfalso. apply Hnotdel.
      rewrite <- (Hkept _ Hnin), <- Hm in Hl.
      destruct (syncTickets_left target sink.*2 k' d Hl) as (<- & _ & _).
      apply list_elem_of_fmap_2. rewrite Hplan2.
      apply list_elem_of_fmap. exists (identityHash d, d). split; [reflexivity |].
      apply elem_of_map_to_list, Hl.
  - intros Hkin. apply list_elem_of_fmap in Hkin as (t & -> & Ht).
    destruct (Hhas t Ht) as (d & Hd & _).
    apply list_elem_of_fmap. exists (identityHash t, d). split; [reflexivity | exact Hd].
Qed.

End Convergence.

(** ** One turn of the loop *)

(** The loop of main.go:122-130 started from any tickets, counts and
    state. *)
Lemma collect_fold (results : list result) :
  forall (allTickets : list itop.Ticket) (countByClass : gmap string nat) (s : State),
    let out :=
      fold_left
        (fun '(allTickets, countByClass, s) r =>
           match err r with
           | Some e =>
               (allTickets, countByClass,
                Printf ("Failed to fetch tickets from iTop (" +:+ class r +:+ "): " +:+ e) s)
           | None =>
               (allTickets ++ tickets r, <[class r := length (tickets r)]> countByClass, s)
           end)
        results (allTickets, countByClass, s) in
    out.1.1 = allTickets
              ++ flat_map (fun r => match err r with Some _ => [] | None => tickets r end)
                   results
    /\ logged out.2
       = logged s
         ++ flat_map (fun r => match err r with
                               | Some e => ["Failed to fetch tickets from iTop ("
                                            +:+ class r +:+ "): " +:+ e]
                               | None => []
                               end) results
    /\ sameResolver out.2 s
    /\ sent out.2 = sent s.
Proof.
  induction results as [| r results IH]; intros allTickets countByClass s; simpl.
  - rewrite !app_nil_r. repeat split.
  - destruct (err r) as [e |].
    + destruct (IH allTickets countByClass
                  (Printf ("Failed to fetch tickets from iTop (" +:+ class r +:+ "): " +:+ e) s))
        as (H1 & H2 & H3 & H4).
      simpl in *. rewrite H1, H2, H4, <- app_assoc. repeat split; apply H3.
    + destruct (IH (allTickets ++ tickets r)
                  (<[class r := length (tickets r)]> countByClass) s)
        as (H1 & H2 & H3 & H4).
      simpl in *. rewrite H1, H2, H4, <- app_assoc. repeat split; apply H3.
Qed.

Lemma collectTickets_collect (results : list result) (s : State) :
  (collectTickets results s).1 = (collect results s).1.1
  /\ sent (collectTickets results s).2 = sent (collect results s).2.
Proof.
  unfold collectTickets. destruct (collect results s) as [[allTickets countByClass] s0].
  split; reflexivity.
Qed.

Lemma collectTickets_sent (results : list result) (s : State) :
  sent (collectTickets results s).2 = sent s.
Proof.
  destruct (collectTickets_collect results s) as [_ ->].
  apply (collect_fold results [] ∅ s).
Qed.

Lemma collectTickets_nothing (results : list result) (s : State) :
  Forall (fun r => err r <> None \/ tickets r = []) results ->
  (collectTickets results s).1 = [].
Proof.
  intros Hall. destruct (collectTickets_collect results s) as [-> _].
  destruct (collect_fold results [] ∅ s) as [H1 _]. unfold collect. rewrite H1. simpl.
  clear H1. induction Hall as [| r results Hr _ IH]; simpl; [reflexivity |].
  rewrite IH, app_nil_r. destruct (err r) as [e |]; [reflexivity |].
  destruct Hr as [Hr | Hr]; [congruence | exact Hr].
Qed.

Lemma deleteRequest_hash (conf : ESConfig) (d d' : ESTicket) :
  identityHash d' = identityHash d -> deleteRequest conf d' = deleteRequest conf d.
Proof. unfold deleteRequest, identityHash. intros ->. reflexivity. Qed.

Section LoopFacts.
Context {env : Environ} {remote : itop.Remote} {services : Services}.

(** X15.  Collecting the results: the tickets of the classes that were
    fetched are put one after the other in the order the results arrive, a
    class that failed gives no ticket and one log line, and nothing else of
    the state changes. *)
Theorem collect_outcome (results : list result) (s : State) :
  (collect results s).1.1
  = flat_map (fun r => match err r with Some _ => [] | None => tickets r end) results
  /\ logged (collect results s).2
     = logged s
       ++ flat_map (fun r => match err r with
                             | Some e => ["Failed to fetch tickets from iTop ("
                                          +:+ class r +:+ "): " +:+ e]
                             | None => []
                             end) results
  /\ sameResolver (collect results s).2 s
  /\ sent (collect results s).2 = sent s.
Proof. apply (collect_fold results [] ∅ s). Qed.

(** X16.  The requests of one turn of [syncLoop]: the search, then one PUT
    for each record [reconcile] wants upserted, then one DELETE for each
    record it wants deleted, where the targets are the fetched tickets as
    [mapTicketToES] maps them and the current records are the ones the
    search returned.  Nothing else is sent, whatever the sink answers to
    the PUTs and DELETEs. *)
Theorem turn_requests (conf : ESConfig) (debug : bool) (holidays : list string)
    (results : list result) (s : State) :
  let s0 := (collectTickets results s).2 in
  let esTickets := (fetchAllESTickets conf s0).1 in
  let targets :=
    (mapTickets (collectTickets results s).1 (list_to_set holidays) debug
       (fetchAllESTickets conf s0).2).1 in
  sent (syncCycle conf debug holidays results s)
  = sent s ++ [searchRequest conf]
    ++ (upsertRequest conf <$> (reconcile targets esTickets).1)
    ++ (deleteRequest conf <$> (reconcile targets esTickets).2).
Proof.
  intros s0 esTickets targets.
  rewrite syncCycle_sent. fold s0 esTickets targets.
  unfold s0 at 1. rewrite collectTickets_sent. reflexivity.
Qed.

(** X17.  When the search cannot be sent, the turn takes the sink for
    empty: every fetched ticket is upserted, in order, and nothing is
    deleted. *)
Theorem failed_search_upserts_everything (conf : ESConfig) (debug : bool)
    (holidays : list string) (results : list result) (s : State) (e : string) :
  let s0 := (collectTickets results s).2 in
  Do (sent s0) (searchRequest conf) = TransportError e ->
  let targets :=
    (mapTickets (collectTickets results s).1 (list_to_set holidays) debug
       (fetchAllESTickets conf s0).2).1 in
  sent (syncCycle conf debug holidays results s)
  = sent s ++ [searchRequest conf] ++ (upsertRequest conf <$> targets).
Proof.
  intros s0 Hdo targets.
  rewrite syncCycle_sent. fold s0 targets.
  assert (Hnone : (fetchAllESTickets conf s0).1 = []).
  { unfold fetchAllESTickets. rewrite Hdo. reflexivity. }
  rewrite Hnone, reconcile_empty. simpl. rewrite app_nil_r.
  unfold s0 at 1. rewrite collectTickets_sent. reflexivity.
Qed.

(** X18.  When no ticket was fetched, because every class failed or came
    back empty, the turn upserts nothing and deletes every record the
    search returned. *)
Theorem nothing_fetched_deletes_everything (conf : ESConfig) (debug : bool)
    (holidays : list string) (results : list result) (s : State) :
  Forall (fun r => err r <> None \/ tickets r = []) results ->
  let s0 := (collectTickets results s).2 in
  let esTickets := (fetchAllESTickets conf s0).1 in
  sent (syncCycle conf debug holidays results s)
  = sent s ++ [searchRequest conf]
    ++ (deleteRequest conf <$> (map_to_list (esTicketMapOf esTickets)).*2)
  /\ forall d, d ∈ esTickets ->
               deleteRequest conf d ∈ sent (syncCycle conf debug holidays results s).
Proof.
  intros Hall s0 esTickets.
  assert (Hsent : sent (syncCycle conf debug holidays results s)
                  = sent s ++ [searchRequest conf]
                    ++ (deleteRequest conf <$> (map_to_list (esTicketMapOf esTickets)).*2)).
  { rewrite syncCycle_sent. fold s0 esTickets.
    rewrite (collectTickets_nothing results s Hall). simpl.
    unfold s0 at 1. rewrite collectTickets_sent. reflexivity. }
  split; [exact Hsent |].
  intros d Hd. rewrite Hsent.
  destruct (insertAll_lookup_is_Some esTickets ∅ (identityHash d)) as [d' Hd'].
  { left. apply list_elem_of_fmap_2, Hd. }
  assert (Hk : identityHash d' = identityHash d).
  { apply insertAll_lookup_Some in Hd' as [[_ Hk] | Hempty]; [exact Hk |].
    rewrite lookup_empty in Hempty. discriminate. }
  rewrite <- (deleteRequest_hash conf d d' Hk).
  rewrite !elem_of_app. right. right.
  apply list_elem_of_fmap_2.
  apply list_elem_of_fmap. exists (identityHash d, d'). split; [reflexivity |].
  apply elem_of_map_to_list. rewrite esTicketMapOf_insertAll. exact Hd'.
Qed.

End LoopFacts.

(** ** Fetching the tickets *)

Lemma setClass_Class_ (class : string) (t : itop.Ticket) :
  itop.Class_ (setClass class t) = class.
Proof. reflexivity. Qed.

Section FetchFacts.
Context {env : Environ} {remote : itop.Remote} {parser : TicketParser}.

(** X19.  [FetchTicketsByClass] stamps the class it was asked for on every
    ticket it returns, whatever class the parser gave it, and returns as
    many tickets as the parser; it touches neither the cache, nor the ticks,
    nor the sink.  Without credentials it returns no ticket and no error and
    makes no call; with them it makes exactly one call, the query of the
    class. *)
Theorem FetchTicketsByClass_outcome (class : string) (s : State) :
  let out := FetchTicketsByClass class s in
  Forall (fun t => itop.Class_ t = class) out.1.1
  /\ personTeamCache out.2 = personTeamCache s
  /\ ticks out.2 = ticks s
  /\ sent out.2 = sent s
  /\ (itop.credentialsMissing = true -> out.1 = ([], None) /\ posted out.2 = posted s)
  /\ (itop.credentialsMissing = false ->
      posted out.2 = posted s ++ [ticketParams class]
      /\ forall resp,
           itop.Post (posted s) itop.personClient "core/get" (ticketParams class) = inl resp ->
           out.1 = (setClass class <$> (ParseTickets resp).1, (ParseTickets resp).2)).
Proof.
  unfold FetchTicketsByClass.
  destruct itop.credentialsMissing; simpl.
  - repeat split; try discriminate. constructor.
  - destruct (itop.Post (posted s) itop.personClient "core/get" (ticketParams class))
      as [resp | e]; simpl.
    + destruct (ParseTickets resp) as [tickets e] eqn:Hparse. simpl.
      repeat split; try discriminate.
      * apply Forall_fmap, Forall_forall. intros t _. reflexivity.
      * intros resp' [= <-]. rewrite Hparse. reflexivity.
    + repeat split; try discriminate. constructor.
Qed.

(** X20.  [FetchTickets] never returns an error, and its tickets are those
    [FetchTicketsByClass] returns for Incident followed by those it returns
    for UserRequest, when the two calls are made one after the other; the
    calls it makes are the same. *)
Theorem FetchTickets_by_class (s : State) :
  let incident := FetchTicketsByClass "Incident" s in
  let userRequest := FetchTicketsByClass "UserRequest" incident.2 in
  (FetchTickets s).1 = (incident.1.1 ++ userRequest.1.1, None)
  /\ posted (FetchTickets s).2 = posted userRequest.2
  /\ sameResolver (FetchTickets s).2 userRequest.2
  /\ sent (FetchTickets s).2 = sent s.
Proof.
  unfold FetchTickets, FetchTicketsByClass, sameResolver.
  destruct itop.credentialsMissing; simpl; [repeat split |].
  destruct (itop.Post (posted s) itop.personClient "core/get" (ticketParams "Incident"))
    as [resp | e]; simpl.
  - destruct (ParseTickets resp) as [tickets e]. simpl.
    destruct (itop.Post (posted s ++ [ticketParams "Incident"]) itop.personClient
                "core/get" (ticketParams "UserRequest")) as [resp' | e']; simpl.
    + destruct (ParseTickets resp') as [tickets' e'']. simpl. repeat split.
    + rewrite app_nil_r. repeat split.
  - destruct (itop.Post (posted s ++ [ticketParams "Incident"]) itop.personClient
                "core/get" (ticketParams "UserRequest")) as [resp' | e']; simpl.
    + destruct (ParseTickets resp') as [tickets' e'']. simpl. repeat split.
    + repeat split.
Qed.

End FetchFacts.

(** ** The two intervals *)

Section IntervalFacts.
Context {env : Environ} {durations : DurationParser}.


End IntervalFacts.

(** ** float64: the seconds of a negative duration *)

Lemma binary_round_aux_negb (s : bool) (m e : Z) (l : SpecFloat.location) :
  binary_round_aux prec emax (negb s) m e l = SFopp (binary_round_aux prec emax s m e l).
Proof.
  unfold binary_round_aux.
  destruct (shr_fexp prec emax m e l) as [mrs' e'].
  destruct (shr_fexp prec emax _ e' loc_Exact) as [mrs'' e''].
  destruct (shr_m mrs'') as [| p | p]; try reflexivity.
  destruct (e'' <=? emax - prec); reflexivity.
Qed.

Lemma binary_round_negb (s : bool) (m : positive) (e : Z) :
  binary_round prec emax (negb s) m e = SFopp (binary_round prec emax s m e).
Proof.
  unfold binary_round.
  destruct (shl_align m e _) as [mz ez]. apply binary_round_aux_negb.
Qed.

(** Dividing by a positive finite float commutes with the change of
    sign. *)
Lemma SFdiv_opp (x : spec_float) (m2 : positive) (e2 : Z) :
  SFdiv prec emax (SFopp x) (S754_finite false m2 e2)
  = SFopp (SFdiv prec emax x (S754_finite false m2 e2)).
Proof.
  destruct x as [sx | sx | | sx mx ex]; simpl; try reflexivity.
  - destruct sx; reflexivity.
  - destruct sx; reflexivity.
  - destruct (SFdiv_core_binary prec emax (Z.pos mx) ex (Z.pos m2) e2) as [[mz ez] lz].
    rewrite !xorb_false_r. apply binary_round_aux_negb.
Qed.

(** Adding two floats that are not negative, one of them positive,
    commutes with the change of sign. *)
Lemma SFadd_opp (x y : spec_float) :
  float64.nonneg x -> float64.nonneg y ->
  float64.positive_float x \/ float64.positive_float y ->
  SFadd prec emax (SFopp x) (SFopp y) = SFopp (SFadd prec emax x y).
Proof.
  intros Nx Ny Hp.
  destruct x as [sx | [] | | [] mx ex]; simpl in Nx; try contradiction;
    destruct y as [sy | [] | | [] my ey]; simpl in Ny; try contradiction;
    simpl in Hp; try tauto; try reflexivity.
  unfold SFadd, cond_Zopp. simpl negb. cbv iota.
  set (a := (shl_align mx ex (ex `min` ey)).1).
  set (b := (shl_align my ey (ex `min` ey)).1).
  change (- Z.pos a + - Z.pos b) with (Z.neg (a + b)).
  change (Z.pos a + Z.pos b) with (Z.pos (a + b)).
  apply (binary_round_negb false).
Qed.

Lemma Prim2SF_of_int64_opp (z : Z) :
  0 < z < 2 ^ 63 ->
  Prim2SF (float64_of_int64 (- z)) = SFopp (Prim2SF (float64_of_int64 z)).
Proof.
  intros Hz. unfold float64_of_int64.
  destruct (Z.ltb_spec (- z) 0); [| lia].
  destruct (Z.ltb_spec z 0); [lia |].
  rewrite FloatAxioms.opp_spec, Z.opp_involutive. reflexivity.
Qed.

(** [Seconds] is odd: the seconds of [- d] are the seconds of [d] with the
    sign changed. *)
Lemma Seconds_opp (d : Z) :
  0 < d < 2 ^ 63 -> Prim2SF (Seconds (- d)) = SFopp (Prim2SF (Seconds d)).
Proof.
  intros Hd. unfold Seconds.
  assert (Hs : 0 < Second) by (unfold Second; lia).
  rewrite Z.quot_opp_l, Z.rem_opp_l by lia.
  pose proof (Z.quot_rem d Second ltac:(lia)) as Hqr.
  pose proof (Z.rem_bound_pos d Second ltac:(lia) Hs) as Hr.
  assert (Hq : 0 <= Z.quot d Second) by (apply Z.quot_pos; lia).
  assert (Hq' : Z.quot d Second < 2 ^ 63).
  { assert (Z.quot d Second <= d) by (apply Z.quot_le_upper_bound; nia). lia. }
  assert (Hr' : Z.rem d Second < 2 ^ 63) by (unfold Second in *; lia).
  set (q := Z.quot d Second) in *. set (r := Z.rem d Second) in *.
  rewrite !FloatAxioms.add_spec, !FloatAxioms.div_spec.
  unfold SF64add, SF64div.
  change (Prim2SF 1e9%float) with (S754_finite false 8388608000000000 (-23)).
  assert (Hzero : Prim2SF (float64_of_int64 0) = S754_zero false)
    by (vm_compute; reflexivity).
  destruct (Z.eq_dec r 0) as [Hr0 | Hrne]; [| destruct (Z.eq_dec q 0) as [Hq0 | Hqne]].
  - rewrite Hr0. change (- 0) with 0. rewrite Hzero.
    change (SFdiv prec emax (S754_zero false) (S754_finite false 8388608000000000 (-23)))
      with (S754_zero false).
    rewrite Prim2SF_of_int64_opp by lia.
    pose proof (Float64Facts.of_int64_big q ltac:(lia)) as Hbig.
    destruct (Prim2SF (float64_of_int64 q)) as [| [] | | [] m e];
      simpl in Hbig; try contradiction; reflexivity.
  - rewrite Hq0. change (- 0) with 0. rewrite Hzero.
    rewrite Prim2SF_of_int64_opp, SFdiv_opp by lia.
    pose proof (Float64Facts.of_int64_big r ltac:(lia)) as Hbig.
    apply (Float64Facts.SFdiv_big 1 _ 8388608000000000 (-23)) in Hbig;
      [| unfold float64.emin64, SpecFloat.emin, prec, emax; simpl; lia].
    apply Float64Facts.big_positive in Hbig.
    set (x := SFdiv prec emax (Prim2SF (float64_of_int64 r))
                (S754_finite false 8388608000000000 (-23))) in *.
    destruct x as [| [] | | [] m e]; simpl in Hbig; try contradiction; reflexivity.
  - rewrite !Prim2SF_of_int64_opp, SFdiv_opp by lia.
    pose proof (Float64Facts.of_int64_big r ltac:(lia)) as Hbig.
    apply (Float64Facts.SFdiv_big 1 _ 8388608000000000 (-23)) in Hbig;
      [| unfold float64.emin64, SpecFloat.emin, prec, emax; simpl; lia].
    apply SFadd_opp.
    + apply Float64Facts.of_int64_nonneg. lia.
    + eapply Float64Facts.big_nonneg. exact Hbig.
    + left. apply (Float64Facts.big_positive 1), Float64Facts.of_int64_big. lia.
Qed.

Lemma SFltb_zero_negative (x : spec_float) :
  float64.positive_float x -> SFltb (S754_zero false) (SFopp x) = false.
Proof. destruct x as [| [] | | [] ? ?]; simpl; tauto. Qed.

Lemma SFeqb_zero_negative (x : spec_float) :
  float64.positive_float x -> SFeqb (SFopp x) (S754_zero false) = false.
Proof. destruct x as [| [] | | [] ? ?]; simpl; tauto. Qed.

(** A negative duration has a negative number of seconds. *)
Lemma Seconds_negative (d : Z) :
  - 2 ^ 63 <= d < 0 ->
  (0 <? Seconds d)%float = false /\ (Seconds d =? 0)%float = false.
Proof.
  intros Hd. destruct (Z.eq_dec d (- 2 ^ 63)) as [-> | Hne].
  - split; vm_compute; reflexivity.
  - rewrite FloatAxioms.ltb_spec, FloatAxioms.eqb_spec.
    change (Prim2SF 0%float) with (S754_zero false).
    replace d with (- - d) by lia. rewrite Seconds_opp by lia.
    split; [apply SFltb_zero_negative | apply SFeqb_zero_negative];
      apply Float64Facts.Seconds_positive; lia.
Qed.

Lemma Seconds_tests_int64 (d : Duration) :
  is_int64 d ->
  (0 <? Seconds d)%float = (0 <? d)
  /\ (Seconds d =? 0)%float = (d =? 0).
Proof.
  intros [Hlo Hhi]. destruct (Z.lt_ge_cases d 0) as [Hneg | Hnonneg].
  - destruct (Seconds_negative d ltac:(lia)) as [-> ->].
    split; symmetry; [apply Z.ltb_ge | apply Z.eqb_neq]; lia.
  - apply Seconds_tests_nonneg. lia.
Qed.

(** X8.  For every 64-bit duration, negative ones included, the tests the
    mapping makes on its seconds agree with the tests on the duration
    itself: the seconds are positive exactly when the duration is, and
    equal to zero exactly when the duration is zero. *)
Theorem Seconds_tests_agree (d : Duration) :
  is_int64 d ->
  (0 <? Seconds d)%float = (0 <? d)
  /\ (Seconds d =? 0)%float = (d =? 0).
Proof. apply Seconds_tests_int64. Qed.

(** The raw verdict of a duration that is not positive. *)
Lemma complianceRaw_nonpositive (deadline raw : Duration) :
  is_int64 raw -> raw <= 0 -> complianceRaw deadline (Seconds raw) = "".
Proof.
  intros Hi Hraw. unfold complianceRaw.
  destruct (Seconds_tests_int64 raw Hi) as [-> _].
  rewrite (proj2 (Z.ltb_ge 0 raw) Hraw), andb_false_r. reflexivity.
Qed.

(** The verdict over a window of a negative duration, whatever the raw
    duration. *)
Lemma complianceWindow_negative (deadline bh : Duration) (raw : float) :
  is_int64 bh -> bh < 0 -> complianceWindow deadline bh raw = "".
Proof.
  intros Hi Hbh. unfold complianceWindow.
  destruct (Seconds_tests_int64 bh Hi) as [-> ->].
  rewrite (proj2 (Z.ltb_ge 0 bh)), (proj2 (Z.eqb_neq bh 0)) by lia.
  simpl. destruct (0 <? deadline); reflexivity.
Qed.

Lemma complianceRaw_no_deadline (deadline : Duration) (raw : float) :
  deadline <= 0 -> complianceRaw deadline raw = "".
Proof.
  intros Hd. unfold complianceRaw. rewrite (proj2 (Z.ltb_ge 0 deadline) Hd). reflexivity.
Qed.

Lemma complianceWindow_no_deadline (deadline bh : Duration) (raw : float) :
  deadline <= 0 -> complianceWindow deadline bh raw = "".
Proof.
  intros Hd. unfold complianceWindow. rewrite (proj2 (Z.ltb_ge 0 deadline) Hd). reflexivity.
Qed.

Lemma priorityLabel_fixed (id : string) : priorityLabel (priorityLabel id) = priorityLabel id.
Proof.
  unfold priorityLabel.
  destruct (String.eqb id "1") eqn:E1; [reflexivity |].
  destruct (String.eqb id "2") eqn:E2; [reflexivity |].
  destruct (String.eqb id "3") eqn:E3; [reflexivity |].
  destruct (String.eqb id "4") eqn:E4; [reflexivity |].
  rewrite E1, E2, E3, E4. reflexivity.
Qed.

Lemma impactLabel_fixed (id : string) : impactLabel (impactLabel id) = impactLabel id.
Proof.
  unfold impactLabel.
  destruct (String.eqb id "1") eqn:E1; [reflexivity |].
  destruct (String.eqb id "2") eqn:E2; [reflexivity |].
  destruct (String.eqb id "3") eqn:E3; [reflexivity |].
  rewrite E1, E2, E3. reflexivity.
Qed.

(** A field of the record [mapTicketToES] returns, read off its
    definition. *)
Ltac record_field := unfold mapTicketToES; repeat case_match; reflexivity.

Section RecordFacts.
Context {env : Environ} {remote : itop.Remote} {services : Services}.

(** X22.  Without a positive deadline there is no verdict: when the
    response deadline of the ticket's SLT is zero or negative, the raw, the
    business-hour and the 24-hour response verdicts are all empty, whatever
    the durations; so for the resolution deadline and the resolution
    verdicts. *)
Theorem no_deadline_no_verdict (t : itop.Ticket) (holidays : gset string)
    (debug : bool) (s : State) :
  let est := (mapTicketToES t holidays debug s).1 in
  (itop.TTO (sltOf t) <= 0 ->
   SLAComplianceResponseRaw est = ""
   /\ SLAComplianceResponseBusinessHour est = ""
   /\ SLAComplianceResponse24BH est = "")
  /\ (itop.TTR (sltOf t) <= 0 ->
      SLAComplianceResolveRaw est = ""
      /\ SLAComplianceResolveBusinessHour est = ""
      /\ SLAComplianceResolve24BH est = "").
Proof.
  intros est. subst est.
  rewrite mapTicketToES_SLAComplianceResponseRaw, mapTicketToES_SLAComplianceResolveRaw,
    mapTicketToES_SLAComplianceResponseBusinessHour,
    mapTicketToES_SLAComplianceResolveBusinessHour,
    mapTicketToES_SLAComplianceResponse24BH, mapTicketToES_SLAComplianceResolve24BH.
  split; intros Hd; repeat split;
    first [apply complianceRaw_no_deadline | apply complianceWindow_no_deadline]; exact Hd.
Qed.

(** X23.  Durations that are not positive give no verdict.  A 64-bit raw
    duration that is zero or negative gives an empty raw verdict.  A
    negative 64-bit duration over the work window, or over the 24-hour
    window, gives an empty verdict for that window whatever the raw
    duration is: the fallback on the raw duration is taken only when the
    duration over the window is exactly zero. *)
Theorem nonpositive_duration_no_verdict (t : itop.Ticket) (holidays : gset string)
    (debug : bool) (s : State) :
  let est := (mapTicketToES t holidays debug s).1 in
  (is_int64 (itop.TimeToResponse t) -> itop.TimeToResponse t <= 0 ->
   SLAComplianceResponseRaw est = "")
  /\ (is_int64 (itop.TimeToResolve t) -> itop.TimeToResolve t <= 0 ->
      SLAComplianceResolveRaw est = "")
  /\ (is_int64 (ttoBHOf t holidays) -> ttoBHOf t holidays < 0 ->
      SLAComplianceResponseBusinessHour est = "")
  /\ (is_int64 (ttrBHOf t holidays) -> ttrBHOf t holidays < 0 ->
      SLAComplianceResolveBusinessHour est = "")
  /\ (is_int64 (tto24BHOf t holidays) -> tto24BHOf t holidays < 0 ->
      SLAComplianceResponse24BH est = "")
  /\ (is_int64 (ttr24BHOf t holidays) -> ttr24BHOf t holidays < 0 ->
      SLAComplianceResolve24BH est = "").
Proof.
  intros est. subst est.
  rewrite mapTicketToES_SLAComplianceResponseRaw, mapTicketToES_SLAComplianceResolveRaw,
    mapTicketToES_SLAComplianceResponseBusinessHour,
    mapTicketToES_SLAComplianceResolveBusinessHour,
    mapTicketToES_SLAComplianceResponse24BH, mapTicketToES_SLAComplianceResolve24BH.
  repeat split; intros Hi Hd;
    first [apply complianceRaw_nonpositive | apply complianceWindow_negative]; assumption.
Qed.

(** X24.  The labels are stable: mapping a value that is already a label
    gives that label again, so a record's priority, urgency and impact are
    fixed points of the label functions; and a ticket's urgency is
    labelled as its priority would be. *)
Theorem labels_are_fixed_points (t : itop.Ticket) (holidays : gset string)
    (debug : bool) (s : State) :
  let est := (mapTicketToES t holidays debug s).1 in
  priorityLabel (Priority est) = Priority est
  /\ urgencyLabel (Urgency est) = Urgency est
  /\ impactLabel (Impact est) = Impact est
  /\ Urgency est = priorityLabel (itop.Urgency t).
Proof.
  intros est.
  assert (Hp : Priority est = priorityLabel (itop.Priority t)) by (subst est; record_field).
  assert (Hu : Urgency est = priorityLabel (itop.Urgency t)) by (subst est; record_field).
  assert (Hi : Impact est = impactLabel (itop.Impact t)) by (subst est; record_field).
  rewrite Hp, Hu, Hi.
  change urgencyLabel with priorityLabel.
  rewrite !priorityLabel_fixed, impactLabel_fixed. repeat split.
Qed.

(** X25.  The dates of a record: a date of the ticket that is the zero
    time is left out, any other date is kept as the same instant, and all
    the dates of one record are shown in the same location. *)
Theorem dates_keep_the_instant (t : itop.Ticket) (holidays : gset string)
    (debug : bool) (s : State) :
  let est := (mapTicketToES t holidays debug s).1 in
  exists zone : Location,
    let shown (d : Time) (p : option Time) :=
      (instant d = 0 -> p = None)
      /\ (instant d <> 0 -> p = Some {| instant := instant d; loc := zone |}) in
    shown (itop.StartDate t) (StartDate est)
    /\ shown (itop.AssignmentDate t) (AssignmentDate est)
    /\ shown (itop.ResolutionDate t) (ResolutionDate est).
Proof.
  intros est.
  set (tz := if String.eqb (Getenv "TIMEZONE") "" then "UTC" else Getenv "TIMEZONE").
  exists (match LoadLocation tz with Some l => l | None => time_Local end).
  assert (Hs : StartDate est
               = datePtr (itop.StartDate t)
                   (match LoadLocation tz with Some l => l | None => time_Local end))
    by (subst est tz; record_field).
  assert (Ha : AssignmentDate est
               = datePtr (itop.AssignmentDate t)
                   (match LoadLocation tz with Some l => l | None => time_Local end))
    by (subst est tz; record_field).
  assert (Hr : ResolutionDate est
               = datePtr (itop.ResolutionDate t)
                   (match LoadLocation tz with Some l => l | None => time_Local end))
    by (subst est tz; record_field).
  rewrite Hs, Ha, Hr. unfold datePtr, IsZero, In_.
  repeat split; intros Hz;
    solve [ rewrite (proj2 (Z.eqb_eq _ _) Hz); reflexivity
          | rewrite (proj2 (Z.eqb_neq _ _) Hz); reflexivity ].
Qed.

(** X26.  The debug flag only adds log lines: with and without it the
    record is the same, and so are the cache, the ticks, the calls of the
    remote and the requests sent. *)
Theorem debug_only_logs (t : itop.Ticket) (holidays : gset string) (s : State) :
  (mapTicketToES t holidays true s).1 = (mapTicketToES t holidays false s).1
  /\ sameResolver (mapTicketToES t holidays true s).2 (mapTicketToES t holidays false s).2
  /\ sent (mapTicketToES t holidays true s).2 = sent (mapTicketToES t holidays false s).2
  /\ exists lines, logged (mapTicketToES t holidays true s).2
                   = logged (mapTicketToES t holidays false s).2 ++ lines.
Proof.
  unfold mapTicketToES, sameResolver.
  destruct (negb (String.eqb (itop.Caller t) "")).
  - destruct (itop.FetchPersonTeams (itop.Caller t) s) as [[team e] s1].
    destruct e as [e |]; simpl.
    + repeat split. exists []. now rewrite app_nil_r.
    + rewrite andb_true_r, andb_false_r.
      destruct (negb (String.eqb team "-")); simpl; repeat split.
      * eexists. reflexivity.
      * exists []. now rewrite app_nil_r.
  - simpl. repeat split. exists []. now rewrite app_nil_r.
Qed.

End RecordFacts.

(** ** The address of a document *)

Lemma docURL_inj (conf : ESConfig) (id id' : string) :
  docURL conf id = docURL conf id' -> id = id'.
Proof.
  unfold docURL. intros Heq.
  repeat apply String.app_inj in Heq. exact Heq.
Qed.

(** X27.  The address of a write is the address of the document named by
    the identity hash of the record: a PUT and a DELETE go to the same
    address exactly when their records have the same identity hash. *)
Theorem same_address_iff_same_hash {services : Services} (conf : ESConfig)
    (t t' : ESTicket) :
  Url (upsertRequest conf t) = Url (deleteRequest conf t')
  <-> identityHash t = identityHash t'.
Proof.
  unfold upsertRequest, deleteRequest, identityHash. simpl. split.
  - apply docURL_inj.
  - intros ->. reflexivity.
Qed.

(** ** Further runs on concrete inputs *)

Lemma personParams_injective_witness :
  itop.personParams "Ann Lee" = itop.personParams "Ann Lee" /\ "Ann Lee" = "Ann Lee".
Proof.
  split; [reflexivity |].
  apply (personParams_injective "Ann Lee" "Ann Lee"). reflexivity.
Defined.



(** Five seconds before: the seconds are negative. *)
Lemma Seconds_tests_agree_witness :
  (0 <? Seconds (- 5 * Second))%float = false
  /\ (Seconds (- 5 * Second) =? 0)%float = false.
Proof.
  apply (Seconds_tests_agree (- 5 * Second)). unfold is_int64, Second. lia.
Defined.

(** A ticket answered within the hour, all of it inside the work window. *)
Lemma window_verdict_against_raw_witness :
  let t := demo.ticket "1" "I-000001" demo.hour demo.hour in
  let est :=
    (mapTicketToES (env := demo.environ) (remote := demo.garbled)
       (services := demo.services demo.hour (2 * demo.hour) []) t ∅ false init_State).1 in
  SLAComplianceResponseBusinessHour est = SLAComplianceResponseRaw est.
Proof.
  intros t est.
  destruct (window_verdict_against_raw (env := demo.environ) (remote := demo.garbled)
              (services := demo.services demo.hour (2 * demo.hour) [])
              t ∅ false init_State) as (H & _).
  - vm_compute. split; [discriminate | reflexivity].
  - vm_compute. split; [discriminate | reflexivity].
  - apply H. reflexivity.
Defined.

(** A changed title and a new record against a one-record snapshot. *)
Lemma reconcile_upserts_needed_witness :
  let old1 := demo.record "1" "I-000001" "Incident" "Printer down" in
  let new1 := demo.record "1" "I-000001" "Incident" "Printer on fire" in
  let new2 := demo.record "2" "R-000002" "UserRequest" "New laptop" in
  (reconcile (services := demo.services 0 0 []) [new1; new2] [old1]).1
  `sublist_of` [new1; new2].
Proof.
  intros old1 new1 new2.
  apply (reconcile_upserts_needed (services := demo.services 0 0 []) [new1; new2] [old1]).
  assert (Hd : bool_decide (NoDup (identityHash <$> [new1; new2])))
    by (vm_compute; exact I).
  exact (bool_decide_unpack _ Hd).
Defined.

(** A sink holding one stale title, brought to two targets. *)
Lemma reconcile_converges_witness :
  let old1 := demo.record "1" "I-000001" "Incident" "Printer down" in
  let new1 := demo.record "1" "I-000001" "Incident" "Printer on fire" in
  let new2 := demo.record "2" "R-000002" "UserRequest" "New laptop" in
  let sink : Sink := [(identityHash old1, old1)] in
  let plan := reconcile (services := demo.services 0 0 []) [new1; new2] sink.*2 in
  (fold_left sinkServe ((upsertCall <$> plan.1) ++ (deleteCall <$> plan.2)) sink).*1
  ≡ₚ identityHash <$> [new1; new2].
Proof.
  intros old1 new1 new2 sink plan.
  apply (reconcile_converges (services := demo.services 0 0 []) sink [new1; new2]).
  - split; [apply NoDup_singleton | repeat constructor].
  - assert (Hd : bool_decide (NoDup (identityHash <$> [new1; new2])))
      by (vm_compute; exact I).
    exact (bool_decide_unpack _ Hd).
Defined.

(** The sink is down: the one fetched ticket is upserted. *)
Lemma failed_search_upserts_everything_witness :
  let services := demo.services demo.hour demo.hour [TransportError "connection refused"] in
  let results :=
    [{| class := "Incident";
        tickets := [demo.ticket "1" "I-000001" demo.hour demo.hour];
        err := None |}] in
  length (sent (syncCycle (env := demo.environ) (remote := demo.garbled)
                  (services := services) demo.conf false [] results init_State))
  = 2%nat.
Proof.
  intros services results.
  rewrite (failed_search_upserts_everything (env := demo.environ) (remote := demo.garbled)
             (services := services) demo.conf false [] results init_State
             "connection refused").
  - reflexivity.
  - reflexivity.
Defined.

(** iTop is down and the sink holds nothing: only the search is sent. *)
Lemma nothing_fetched_deletes_everything_witness :
  let results := [{| class := "Incident"; tickets := []; err := Some "timeout" |}] in
  sent (syncCycle (env := demo.environ) (remote := demo.garbled)
          (services := demo.services 0 0 []) demo.conf false [] results init_State)
  = [searchRequest demo.conf].
Proof.
  intros results.
  destruct (nothing_fetched_deletes_everything (env := demo.environ)
              (remote := demo.garbled) (services := demo.services 0 0 [])
              demo.conf false [] results init_State) as [H _].
  - constructor; [left; discriminate | constructor].
  - rewrite H. reflexivity.
Defined.

(** Answered exactly at the deadline of one hour. *)
Lemma deadline_is_inclusive_witness :
  let t := demo.ticket "1" "I-000001" demo.hour demo.hour in
  SLAComplianceResponseRaw
    (mapTicketToES (env := demo.environ) (remote := demo.garbled)
       (services := demo.services 0 demo.hour []) t ∅ false init_State).1
  = "comply".
Proof.
  intros t.
  destruct (deadline_is_inclusive (env := demo.environ) (remote := demo.garbled)
              (services := demo.services 0 demo.hour []) t ∅ false init_State)
    as (H & _).
  destruct H as [H _]; [vm_compute; split; reflexivity |].
  apply H. reflexivity.
Defined.

(** No deadline in the SLT: no verdict, although the ticket took an hour. *)
Lemma no_deadline_no_verdict_witness :
  let t := demo.ticket "1" "I-000001" demo.hour demo.hour in
  SLAComplianceResponseBusinessHour
    (mapTicketToES (env := demo.environ) (remote := demo.garbled)
       (services := demo.services demo.hour 0 []) t ∅ false init_State).1
  = "".
Proof.
  intros t.
  destruct (no_deadline_no_verdict (env := demo.environ) (remote := demo.garbled)
              (services := demo.services demo.hour 0 []) t ∅ false init_State)
    as (H & _).
  apply H. vm_compute. discriminate.
Defined.

(** Assigned an hour before it was opened: no business-hour verdict. *)
Lemma nonpositive_duration_no_verdict_witness :
  let t := demo.ticket "1" "I-000001" demo.hour demo.hour in
  SLAComplianceResponseBusinessHour
    (mapTicketToES (env := demo.environ) (remote := demo.garbled)
       (services := demo.services (- demo.hour) demo.hour []) t ∅ false init_State).1
  = "".
Proof.
  intros t.
  destruct (nonpositive_duration_no_verdict (env := demo.environ) (remote := demo.garbled)
              (services := demo.services (- demo.hour) demo.hour []) t ∅ false init_State)
    as (_ & _ & H & _).
  apply H; [vm_compute; split; [discriminate | reflexivity] | vm_compute; reflexivity].
Defined.
